(** * swift-parse-test: the parser benchmark driver

    A shallow embedding of [lib/DriverTool/swift_parse_test_main.cpp]:
    the corpus loader ([loadSources]), the timing probe ([measure]), the
    per-executor measurement loop ([perform]) and the driver
    ([swift_parse_test_main]), followed by the properties of the tool's
    specification that were checked against them.

    Conventions of the embedding.
    - Machine integers are [Z] with the wrap-around of unsigned types written
      out ([UINT_MAX_plus_1], [UINTMAX_MAX_plus_1]).  Durations are the tick
      counts of [std::chrono] durations; signed overflow of a 64-bit tick
      count is undefined in C++ and is not modelled.
    - The two clocks are oracles: [std_clock k] is what the [k]-th call of
      [std::clock()] returns, [steady_clock_now k] what the [k]-th call of
      [std::chrono::steady_clock::now()] returns (in nanoseconds).  The
      [World] counts the calls made so far.
    - [llvm::outs()] and [llvm::errs()] are lists of lines.  A line of the
      report carries the integer handed to [llvm::format], not its
      rendering.
    - The file system is a finite tree ([FsNode]). *)

From Stdlib Require Import ZArith List String Ascii Bool Lia.
From Stdlib Require Import Strings.Byte.
Import ListNotations.
Local Open Scope Z_scope.

(** ** Machine integers and [std::chrono] *)

(** [unsigned int] arithmetic is modulo [2^32]. *)
Definition UINT_MAX_plus_1 : Z := 2 ^ 32.

(** [uintmax_t] arithmetic is modulo [2^64]. *)
Definition UINTMAX_MAX_plus_1 : Z := 2 ^ 64.

Module Chrono.

(** [std::chrono::nanoseconds]: a signed tick count with period [1/10^9]. *)
Definition nanoseconds : Type := Z.

(** [std::chrono::nanoseconds::period::num] *)
Definition period_num : Z := 1.

(** [std::chrono::nanoseconds::period::den] *)
Definition period_den : Z := 1000000000.

(** [duration_t::zero()] *)
Definition zero : nanoseconds := 0.

(** [std::chrono::duration_cast<std::chrono::milliseconds>(d).count()]:
    the tick count is divided by [10^6] with C++ integer division, which
    truncates toward zero. *)
Definition duration_cast_milliseconds (d : nanoseconds) : Z :=
  Z.quot d 1000000.

End Chrono.

(** ** Errors, options, buffers *)

(** [llvm::Error]: success, or a failure carrying its message. *)
Definition llvm_Error : Type := option string.

Definition Error_success : llvm_Error := None.

(** [llvm::createStringError(llvm::inconvertibleErrorCode(), msg)] *)
Definition createStringError (msg : string) : llvm_Error := Some msg.

(** [if (err)]: an [llvm::Error] converts to [true] when it holds a failure. *)
Definition Error_bool (err : llvm_Error) : bool :=
  match err with
  | Some _ => true
  | None => false
  end.

(** [enum class Executor] *)
Inductive Executor : Type :=
| SwiftParser
| LibParse.

(** [ExecuteOptions = OptionSet<ExecuteOptionFlag>]: a bit set. *)
Definition ExecuteOptions : Type := Z.

(** [enum class ExecuteOptionFlag] *)
Module ExecuteOptionFlag.
(** [SkipBodies = 1 << 0]: enable body skipping. *)
Definition SkipBodies : Z := Z.shiftl 1 0.
End ExecuteOptionFlag.

(** The empty option set of a default-constructed [ExecuteOptions]. *)
Definition no_options : ExecuteOptions := 0.

(** [opts |= flag] *)
Definition add_option (opts : ExecuteOptions) (flag : Z) : ExecuteOptions :=
  Z.lor opts flag.

(** [OptionSet::contains] *)
Definition contains (opts : ExecuteOptions) (flag : Z) : bool :=
  Z.land opts flag =? flag.

(** [llvm::MemoryBuffer]: an identifier (the path it was read from) and the
    bytes of the file. *)
Record MemoryBuffer : Type := mkMemoryBuffer {
  getBufferIdentifier : string;
  getBuffer : list byte
}.

(** [MemoryBuffer::getBufferSize()] *)
Definition getBufferSize (buffer : MemoryBuffer) : Z :=
  Z.of_nat (List.length (getBuffer buffer)).

(** [StringRef::count(char)] *)
Fixpoint count (c : byte) (s : list byte) : nat :=
  match s with
  | [] => O
  | b :: s' => if Byte.eqb b c then S (count c s') else count c s'
  end.

(** The byte ['\n']. *)
Definition newline : byte := x0a.

(** [StringRef::endswith(Suffix)] *)
Definition endswith (s suffix : string) : bool :=
  (String.length suffix <=? String.length s)%nat
  && String.eqb
       (substring (String.length s - String.length suffix)
                  (String.length suffix) s)
       suffix.

(** ** The file system seen by the corpus loader *)

(** What a path names.  [Directory entries] lists, in iteration order, the
    paths [I->path()] that [llvm::sys::fs::directory_iterator] yields with
    what each of them names; an iterator that stops on an error yields the
    entries before the error.  [RegularFile None] is a file that
    [llvm::MemoryBuffer::getFile] cannot read; [Absent] is a path that names
    nothing. *)
#[warnings="-register-all"]
Inductive FsNode : Type :=
| Absent
| RegularFile (contents : option (list byte))
| Directory (entries : list (string * FsNode)).

(** [llvm::sys::fs::is_directory(path)] *)
Definition is_directory (node : FsNode) : bool :=
  match node with
  | Directory _ => true
  | _ => false
  end.

(** [llvm::MemoryBuffer::getFile(path)]: the buffer, or an error
    ([None]). *)
Definition getFile (path : string) (node : FsNode) : option MemoryBuffer :=
  match node with
  | RegularFile (Some bytes) => Some (mkMemoryBuffer path bytes)
  | _ => None
  end.

(** [_loadSwiftFilesRecursively(path, buffers)], where [node] is what [path]
    names. *)
Fixpoint _loadSwiftFilesRecursively (path : string) (node : FsNode)
    (buffers : list MemoryBuffer) {struct node} : list MemoryBuffer :=
  match node with
  | Directory entries =>
      (fix each_entry (es : list (string * FsNode))
           (buffers : list MemoryBuffer) {struct es} : list MemoryBuffer :=
         match es with
         | [] => buffers
         | (entry_path, entry) :: es' =>
             each_entry es'
               (_loadSwiftFilesRecursively entry_path entry buffers)
         end) entries buffers
  | _ =>
      if endswith path ".swift" then
        match getFile path node with
        | Some buffer => buffers ++ [buffer]
        | None => buffers
        end
      else buffers
  end.

(** The loop over the entries of a directory, named. *)
Fixpoint load_entries (es : list (string * FsNode))
    (buffers : list MemoryBuffer) : list MemoryBuffer :=
  match es with
  | [] => buffers
  | (entry_path, entry) :: es' =>
      load_entries es' (_loadSwiftFilesRecursively entry_path entry buffers)
  end.

(** [loadSources(filePaths, buffers)]; [fs path] is what [path] names. *)
Fixpoint loadSources (fs : string -> FsNode) (filePaths : list string)
    (buffers : list MemoryBuffer) : list MemoryBuffer :=
  match filePaths with
  | [] => buffers
  | path :: rest =>
      loadSources fs rest (_loadSwiftFilesRecursively path (fs path) buffers)
  end.

(** [struct SwiftParseTestOptions], after [ParseCommandLineOptions]. *)
Record SwiftParseTestOptions : Type := mkOptions {
  Executors : list Executor;
  Iterations : nat;             (* unsigned int, default 1 *)
  SkipBodies : bool;
  InputPaths : list string
}.

(** ** The world: clocks, streams and the log of parser invocations *)

(** One invocation of an executor's [performParse]. *)
Record ParseCall : Type := mkParseCall {
  call_executor : string;
  call_buffer : string;
  call_opts : ExecuteOptions
}.

(** The lines the tool writes to [llvm::outs()], each with the value handed
    to [llvm::format]. *)
Inductive OutLine : Type :=
| FileCount (n : Z)            (* "file count:  %8d\n" *)
| TotalBytes (n : Z)           (* "total bytes: %8d\n" *)
| TotalLines (n : Z)           (* "total lines: %8d\n" *)
| IterationsLine (n : Z)       (* "iterations:  %8d\n" *)
| Separator                    (* "----\n" *)
| ParserLine (name : string)   (* "parser: " << name << "\n" *)
| WallClockMs (v : Z)          (* "wall clock time (ms): %8d\n" *)
| CpuTimeMs (v : Z)            (* "cpu time (ms):        %8d\n" *)
| ThroughputBytes (v : Z)      (* "throughput (byte/s):  %8d\n" *)
| ThroughputLines (v : Z).     (* "throughput (line/s):  %8d\n" *)

Record World : Type := mkWorld {
  clock_reads : nat;            (* calls of std::clock() made so far *)
  now_reads : nat;              (* calls of steady_clock::now() made so far *)
  parse_log : list ParseCall;   (* performParse invocations, oldest first *)
  outs : list OutLine;          (* llvm::outs(), oldest first *)
  errs : list string            (* lines of llvm::errs(), oldest first *)
}.

Definition initial_world : World := mkWorld 0 0 [] [] [].

Definition tick_clock (w : World) : World :=
  mkWorld (S (clock_reads w)) (now_reads w) (parse_log w) (outs w) (errs w).

Definition tick_now (w : World) : World :=
  mkWorld (clock_reads w) (S (now_reads w)) (parse_log w) (outs w) (errs w).

Definition log_call (c : ParseCall) (w : World) : World :=
  mkWorld (clock_reads w) (now_reads w) (parse_log w ++ [c]) (outs w) (errs w).

Definition print_outs (ls : list OutLine) (w : World) : World :=
  mkWorld (clock_reads w) (now_reads w) (parse_log w) (outs w ++ ls) (errs w).

Definition print_errs (s : string) (w : World) : World :=
  mkWorld (clock_reads w) (now_reads w) (parse_log w) (outs w) (errs w ++ [s]).

(** ** Executors *)

(** What the template parameter [Executor] of [perform] provides: the static
    member [name] and the static function [performParse].  The parsers
    themselves live outside this file; of a parse, the tool sees the returned
    [llvm::Error] and the time the call took (which the clock oracles
    carry). *)
Record ExecutorImpl : Type := mkExecutorImpl {
  name : string;
  performParse : MemoryBuffer -> ExecuteOptions -> llvm_Error
}.

(** [struct LibParseExecutor]: parses the top-level items and returns
    [llvm::Error::success()] on every path. *)
Definition LibParseExecutor : ExecutorImpl :=
  mkExecutorImpl "libParse" (fun _ _ => Error_success).

(** [struct SwiftParserExecutor]; the argument is the build macro
    [SWIFT_BUILD_SWIFT_SYNTAX]. *)
Definition SwiftParserExecutor (SWIFT_BUILD_SWIFT_SYNTAX : bool)
  : ExecutorImpl :=
  mkExecutorImpl "SwiftParser"
    (fun _ _ =>
       if SWIFT_BUILD_SWIFT_SYNTAX then Error_success
       else createStringError "SwiftParser is not supported").

(** ** The timing probe and the measurement loop *)

(** The local variables of [perform] that its loops and the lambda handed to
    [measure] (which captures by reference) read and write. *)
Record Frame : Type := mkFrame {
  tDuration : Chrono.nanoseconds;   (* wall clock time *)
  cDuration : Chrono.nanoseconds;   (* CPU time *)
  err : llvm_Error
}.

Definition set_err (e : llvm_Error) (fr : Frame) : Frame :=
  mkFrame (tDuration fr) (cDuration fr) e.

Section Platform.

(** The macro [CLOCKS_PER_SEC] of [<ctime>]. *)
Variable CLOCKS_PER_SEC : Z.

(** [std_clock k]: the value of the [k]-th call of [std::clock()]. *)
Variable std_clock : nat -> Z.

(** [steady_clock_now k]: the value, in nanoseconds, of the [k]-th call of
    [std::chrono::steady_clock::now()]. *)
Variable steady_clock_now : nat -> Z.

(** [measure<std::chrono::nanoseconds>(body)].  [body] acts on the world
    and on the variables [Captured] that it holds by reference. *)
Definition measure {Captured : Type}
    (body : World * Captured -> World * Captured)
    (st : World * Captured) : (World * Captured) * (Z * Z) :=
  let cStart := std_clock (clock_reads (fst st)) in
  let st := (tick_clock (fst st), snd st) in
  let tStart := steady_clock_now (now_reads (fst st)) in
  let st := (tick_now (fst st), snd st) in
  let st := body st in
  let cEnd := std_clock (clock_reads (fst st)) in
  let st := (tick_clock (fst st), snd st) in
  let tEnd := steady_clock_now (now_reads (fst st)) in
  let st := (tick_now (fst st), snd st) in
  let clockMultiply :=
    if 0 <? CLOCKS_PER_SEC
    then Z.quot (Z.quot Chrono.period_den CLOCKS_PER_SEC) Chrono.period_num
    else 0 in
  let cDuration := (cEnd - cStart) * clockMultiply in
  (st, (tEnd - tStart, cDuration)).

(** The lambda of [perform]:
    [[&] { err = Executor::performParse(buffer->getMemBufferRef(), opts); }] *)
Definition parse_body (X : ExecutorImpl) (buffer : MemoryBuffer)
    (opts : ExecuteOptions) (st : World * Frame) : World * Frame :=
  (log_call (mkParseCall (name X) (getBufferIdentifier buffer) opts) (fst st),
   set_err (performParse X buffer opts) (snd st)).

(** [for (auto &buffer : buffers) { ... }] of [perform].  The boolean is
    [true] when the loop was left through [return err]. *)
Fixpoint each_buffer (X : ExecutorImpl) (opts : ExecuteOptions)
    (buffers : list MemoryBuffer) (st : World * Frame)
  : (World * Frame) * bool :=
  match buffers with
  | [] => (st, false)
  | buffer :: rest =>
      let '(st, elapsed) := measure (parse_body X buffer opts) st in
      if Error_bool (err (snd st)) then (st, true)
      else
        let fr := snd st in
        let fr := mkFrame (tDuration fr + fst elapsed) (cDuration fr) (err fr) in
        let fr := mkFrame (tDuration fr) (cDuration fr + snd elapsed) (err fr) in
        each_buffer X opts rest (fst st, fr)
  end.

(** [for (unsigned i = 0; i < iteration; i++) { ... }] of [perform]; the
    counter runs through [0 .. iteration - 1] and is not used by the
    body. *)
Fixpoint each_iteration (X : ExecutorImpl) (opts : ExecuteOptions)
    (buffers : list MemoryBuffer) (iteration : nat) (st : World * Frame)
  : (World * Frame) * bool :=
  match iteration with
  | O => (st, false)
  | S remaining =>
      let '(st, returned) := each_buffer X opts buffers st in
      if returned then (st, true)
      else each_iteration X opts buffers remaining st
  end.

(** [perform<Executor>] up to the end of its loops: the header lines, the
    initialisation of the locals and the two loops. *)
Definition perform_loops (X : ExecutorImpl) (buffers : list MemoryBuffer)
    (opts : ExecuteOptions) (iteration : nat) (w : World)
  : (World * Frame) * bool :=
  let w := print_outs [Separator] w in
  let w := print_outs [ParserLine (name X)] w in
  let fr := mkFrame Chrono.zero Chrono.zero Error_success in
  each_iteration X opts buffers iteration (w, fr).

(** The lines of the report that follow the loops. *)
Definition report_lines (fr : Frame) (totalBytes totalLines : Z)
  : list OutLine :=
  let tDisplay := Chrono.duration_cast_milliseconds (tDuration fr) in
  let cDisplay := Chrono.duration_cast_milliseconds (cDuration fr) in
  [WallClockMs tDisplay; CpuTimeMs cDisplay]
  ++ (if 0 <? cDuration fr then
        (* operands are converted to uintmax_t *)
        let byteTPS :=
          ((totalBytes * Chrono.period_den) mod UINTMAX_MAX_plus_1)
          / cDuration fr in
        let lineTPS :=
          ((totalLines * Chrono.period_den) mod UINTMAX_MAX_plus_1)
          / cDuration fr in
        [ThroughputBytes byteTPS; ThroughputLines lineTPS]
      else []).

(** [perform<Executor>(buffers, opts, iteration, totalBytes, totalLines)] *)
Definition perform (X : ExecutorImpl) (buffers : list MemoryBuffer)
    (opts : ExecuteOptions) (iteration : nat) (totalBytes totalLines : Z)
    (w : World) : World * llvm_Error :=
  let '((w, fr), returned) := perform_loops X buffers opts iteration w in
  if returned then (w, err fr)
  else (print_outs (report_lines fr totalBytes totalLines) w, Error_success).

(** The build macro [SWIFT_BUILD_SWIFT_SYNTAX]. *)
Variable SWIFT_BUILD_SWIFT_SYNTAX : bool.

(** [fs path]: what [path] names in the file system. *)
Variable fs : string -> FsNode.

(** The loop of [swift_parse_test_main] that sums the sizes and the
    newline counts of the buffers into two [unsigned int] variables. *)
Fixpoint count_corpus (buffers : list MemoryBuffer) (byteCount lineCount : Z)
  : Z * Z :=
  match buffers with
  | [] => (byteCount, lineCount)
  | buffer :: rest =>
      let byteCount :=
        (byteCount + getBufferSize buffer) mod UINT_MAX_plus_1 in
      let lineCount :=
        (lineCount + Z.of_nat (count newline (getBuffer buffer)))
        mod UINT_MAX_plus_1 in
      count_corpus rest byteCount lineCount
  end.

(** The [switch (mode)] of [swift_parse_test_main]. *)
Definition executor_of (mode : Executor) : ExecutorImpl :=
  match mode with
  | SwiftParser => SwiftParserExecutor SWIFT_BUILD_SWIFT_SYNTAX
  | LibParse => LibParseExecutor
  end.

(** [for (auto mode : options.Executors) { ...; if (err) break; }] *)
Fixpoint each_executor (modes : list Executor)
    (buffers : list MemoryBuffer) (execOptions : ExecuteOptions)
    (iterations : nat) (byteCount lineCount : Z) (w : World)
  : World * llvm_Error :=
  match modes with
  | [] => (w, Error_success)
  | mode :: rest =>
      let '(w, err) :=
        perform (executor_of mode) buffers execOptions iterations
                byteCount lineCount w in
      if Error_bool err then (w, err)
      else each_executor rest buffers execOptions iterations
                         byteCount lineCount w
  end.

(** [swift_parse_test_main]: the final world and the exit status. *)
Definition swift_parse_test_main (options : SwiftParseTestOptions)
    (w : World) : World * Z :=
  let iterations := Iterations options in
  let execOptions := no_options in
  let execOptions :=
    if SkipBodies options
    then add_option execOptions ExecuteOptionFlag.SkipBodies
    else execOptions in
  let buffers := loadSources fs (InputPaths options) [] in
  let '(byteCount, lineCount) := count_corpus buffers 0 0 in
  let w :=
    print_outs [FileCount (Z.of_nat (List.length buffers));
                TotalBytes byteCount;
                TotalLines lineCount;
                IterationsLine (Z.of_nat iterations)] w in
  let '(w, err) :=
    each_executor (Executors options) buffers execOptions iterations
                  byteCount lineCount w in
  match err with
  | Some message => (print_errs ("error: " ++ message) w, 1)
  | None => (w, 0)
  end.

End Platform.

(** ** Vocabulary of the statements *)

Section Samples.

Variable CLOCKS_PER_SEC : Z.
Variable std_clock : nat -> Z.
Variable steady_clock_now : nat -> Z.

(** The factor from [std::clock()] ticks to nanoseconds. *)
Definition clockMultiply : Z :=
  if 0 <? CLOCKS_PER_SEC
  then Z.quot (Z.quot Chrono.period_den CLOCKS_PER_SEC) Chrono.period_num
  else 0.

(** The CPU duration between the [k]-th and the next sample of
    [std::clock()]. *)
Definition cpu_sample (k : nat) : Z :=
  (std_clock (S k) - std_clock k) * clockMultiply.

(** The wall duration between the [k]-th and the next sample of the steady
    clock. *)
Definition wall_sample (k : nat) : Z :=
  steady_clock_now (S k) - steady_clock_now k.

End Samples.

(** The sum of [calls] consecutive samples, the first one starting at clock
    read [start]; a measured call reads each clock twice. *)
Fixpoint sum_samples (sample : nat -> Z) (start calls : nat) : Z :=
  match calls with
  | O => 0
  | S calls' => sample start + sum_samples sample (S (S start)) calls'
  end.

Section Accumulation.

Variable CLOCKS_PER_SEC : Z.
Variable std_clock : nat -> Z.
Variable steady_clock_now : nat -> Z.

(** The locals after [calls] further successful measured parses, the first
    of which started in world [w]. *)
Definition accumulated (w : World) (fr : Frame) (calls : nat) (e : llvm_Error)
  : Frame :=
  mkFrame
    (tDuration fr
     + sum_samples (wall_sample steady_clock_now) (now_reads w) calls)
    (cDuration fr
     + sum_samples (cpu_sample CLOCKS_PER_SEC std_clock) (clock_reads w) calls)
    e.

(** The locals with which [perform] enters its loops. *)
Definition initial_frame : Frame :=
  mkFrame Chrono.zero Chrono.zero Error_success.

End Accumulation.

(** The log entry of the parse of [buffer] by executor [X]. *)
Definition call_of (X : ExecutorImpl) (opts : ExecuteOptions)
    (buffer : MemoryBuffer) : ParseCall :=
  mkParseCall (name X) (getBufferIdentifier buffer) opts.

(** The world after the measured parses of [bs], in that order. *)
Definition after_calls (X : ExecutorImpl) (opts : ExecuteOptions)
    (bs : list MemoryBuffer) (w : World) : World :=
  mkWorld (clock_reads w + 2 * List.length bs)
          (now_reads w + 2 * List.length bs)
          (parse_log w ++ map (call_of X opts) bs)
          (outs w) (errs w).

(** The buffers parsed by [iteration] passes over the corpus. *)
Definition passes (iteration : nat) (buffers : list MemoryBuffer)
  : list MemoryBuffer :=
  List.concat (repeat buffers iteration).

(** The header that [perform] prints before its loops. *)
Definition header_of (X : ExecutorImpl) : list OutLine :=
  [Separator; ParserLine (name X)].

(** The world once [perform] has printed its header. *)
Definition started (X : ExecutorImpl) (w : World) : World :=
  print_outs (header_of X) w.

(** Whether a line is one of the two throughput lines of a report. *)
Definition is_throughput (l : OutLine) : bool :=
  match l with
  | ThroughputBytes _ | ThroughputLines _ => true
  | _ => false
  end.

(** The specification's formula for a throughput figure,
    [total * iterations / cpuSeconds] truncated to an integer, with the CPU
    time given in nanoseconds. *)
Definition throughput_as_specified (total : Z) (iterations : nat)
    (cpu_ns : Z) : Z :=
  (total * Z.of_nat iterations * 1000000000) / cpu_ns.

(** The specification's "rounded to milliseconds", read as rounding to the
    nearest millisecond (a half rounds up). *)
Definition rounded_to_milliseconds (ns : Z) : Z :=
  (ns + 500000) / 1000000.

(** A path that cannot be read: it names nothing, or a file that
    [getFile] fails on. *)
Definition unreadable (node : FsNode) : bool :=
  match node with
  | Absent | RegularFile None => true
  | _ => false
  end.

(** The byte total of a corpus as a mathematical integer. *)
Fixpoint true_bytes (buffers : list MemoryBuffer) : Z :=
  match buffers with
  | [] => 0
  | buffer :: rest => getBufferSize buffer + true_bytes rest
  end.

(** The newline total of a corpus as a mathematical integer. *)
Fixpoint true_lines (buffers : list MemoryBuffer) : Z :=
  match buffers with
  | [] => 0
  | buffer :: rest =>
      Z.of_nat (count newline (getBuffer buffer)) + true_lines rest
  end.

(** The option set that [swift_parse_test_main] builds from the flags. *)
Definition exec_options_of (options : SwiftParseTestOptions)
  : ExecuteOptions :=
  if SkipBodies options
  then add_option no_options ExecuteOptionFlag.SkipBodies
  else no_options.

(** [options] with other input paths. *)
Definition with_input_paths (options : SwiftParseTestOptions)
    (paths : list string) : SwiftParseTestOptions :=
  mkOptions (Executors options) (Iterations options) (SkipBodies options)
            paths.

(** [options] with another list of executors. *)
Definition with_executors (options : SwiftParseTestOptions)
    (modes : list Executor) : SwiftParseTestOptions :=
  mkOptions modes (Iterations options) (SkipBodies options)
            (InputPaths options).

(** The preamble that [swift_parse_test_main] prints for a corpus. *)
Definition preamble (buffers : list MemoryBuffer) (byteCount lineCount : Z)
    (iterations : nat) : list OutLine :=
  [FileCount (Z.of_nat (List.length buffers));
   TotalBytes byteCount;
   TotalLines lineCount;
   IterationsLine (Z.of_nat iterations)].

Section ControllerVocabulary.

Variable CLOCKS_PER_SEC : Z.
Variable std_clock : nat -> Z.
Variable steady_clock_now : nat -> Z.
Variable SWIFT_BUILD_SWIFT_SYNTAX : bool.

(** The run of one selected executor. *)
Definition run_mode (buffers : list MemoryBuffer) (execOptions : ExecuteOptions)
    (iterations : nat) (byteCount lineCount : Z) (mode : Executor) (w : World)
  : World * llvm_Error :=
  perform CLOCKS_PER_SEC std_clock steady_clock_now
          (executor_of SWIFT_BUILD_SWIFT_SYNTAX mode)
          buffers execOptions iterations byteCount lineCount w.

(** The world after the runs of [modes], one after the other in list
    order. *)
Fixpoint run_in_order (buffers : list MemoryBuffer)
    (execOptions : ExecuteOptions) (iterations : nat) (byteCount lineCount : Z)
    (modes : list Executor) (w : World) : World :=
  match modes with
  | [] => w
  | mode :: rest =>
      run_in_order buffers execOptions iterations byteCount lineCount rest
        (fst (run_mode buffers execOptions iterations byteCount lineCount
                       mode w))
  end.

(** Whether the runs of [modes], one after the other in list order, all
    succeed. *)
Fixpoint all_succeed (buffers : list MemoryBuffer)
    (execOptions : ExecuteOptions) (iterations : nat) (byteCount lineCount : Z)
    (modes : list Executor) (w : World) : bool :=
  match modes with
  | [] => true
  | mode :: rest =>
      let r := run_mode buffers execOptions iterations byteCount lineCount
                        mode w in
      negb (Error_bool (snd r))
      && all_succeed buffers execOptions iterations byteCount lineCount rest
                     (fst r)
  end.

End ControllerVocabulary.

(** The buffers that the loader adds for [path], which names [node]. *)
Definition loaded (path : string) (node : FsNode) : list MemoryBuffer :=
  _loadSwiftFilesRecursively path node [].



(** [true] for the mode [SwiftParser]. *)
Definition is_SwiftParser (mode : Executor) : bool :=
  match mode with
  | SwiftParser => true
  | LibParse => false
  end.

(** Whether a selected executor gets to make a parse call that fails: the
    SwiftParser is selected in a build without it, and there is something to
    parse. *)
Definition hits_unsupported_parser (SWIFT_BUILD_SWIFT_SYNTAX : bool)
    (modes : list Executor) (buffers : list MemoryBuffer) (iterations : nat)
  : bool :=
  existsb is_SwiftParser modes
  && negb SWIFT_BUILD_SWIFT_SYNTAX
  && negb (Nat.eqb (List.length buffers) 0)
  && negb (Nat.eqb iterations 0).

(** The message of the failure of [SwiftParserExecutor] in a build without
    the SwiftParser. *)
Definition unsupported_message : string := "SwiftParser is not supported".

(** A log entry made on behalf of one of [modes], for a buffer of the
    corpus, with the option set [opts]. *)
Definition call_from (SWIFT_BUILD_SWIFT_SYNTAX : bool)
    (modes : list Executor) (buffers : list MemoryBuffer)
    (opts : ExecuteOptions) (c : ParseCall) : Prop :=
  call_opts c = opts
  /\ (exists mode,
        In mode modes
        /\ call_executor c = name (executor_of SWIFT_BUILD_SWIFT_SYNTAX mode))
  /\ (exists b, In b buffers /\ call_buffer c = getBufferIdentifier b).

(** The executor and the buffer of a log entry, without the options. *)
Definition call_key (c : ParseCall) : string * string :=
  (call_executor c, call_buffer c).

(** Two worlds that differ at most in the options recorded with the parse
    calls: same clock reads, same output, same error stream, and the same
    calls by the same executors on the same buffers in the same order. *)
Definition same_but_opts (w1 w2 : World) : Prop :=
  clock_reads w1 = clock_reads w2
  /\ now_reads w1 = now_reads w2
  /\ outs w1 = outs w2
  /\ errs w1 = errs w2
  /\ map call_key (parse_log w1) = map call_key (parse_log w2).

(** [options] with another value of the [skip-bodies] flag. *)
Definition with_skip_bodies (options : SwiftParseTestOptions) (flag : bool)
  : SwiftParseTestOptions :=
  mkOptions (Executors options) (Iterations options) flag
            (InputPaths options).

(** ** A concrete platform for the examples *)

Module Example.

(** The POSIX value of [CLOCKS_PER_SEC]. *)
Definition CLOCKS_PER_SEC : Z := 1000000.

(** Clocks that advance by [step] between the sample taken before a parse
    and the sample taken after it, and stand still otherwise: the reads
    [2j] and [2j+1] frame the [j]-th parse. *)
Definition stepping_clock (step : Z) (k : nat) : Z :=
  step * Z.of_nat (Nat.div2 (S k)).

(** A file of four bytes and two lines. *)
Definition a_swift : MemoryBuffer :=
  mkMemoryBuffer "a.swift" [x61; x0a; x62; x0a].

Definition b_swift : MemoryBuffer :=
  mkMemoryBuffer "b.swift" [x62; x0a].

(** An executor, in the shape [perform] expects of its template parameter,
    whose parser rejects the buffer named "b.swift". *)
Definition picky : ExecutorImpl :=
  mkExecutorImpl "picky"
    (fun buffer _ =>
       if String.eqb (getBufferIdentifier buffer) "b.swift"
       then createStringError "cannot parse"
       else Error_success).

(** A small file system: a source file, a directory with a source file and
    a text file, a source file that cannot be read, and a text file. *)
Definition files (path : string) : FsNode :=
  if String.eqb path "a.swift" then
    RegularFile (Some [x61; x0a; x62; x0a])
  else if String.eqb path "src" then
    Directory [("src/b.swift"%string, RegularFile (Some [x62; x0a]));
               ("src/notes.txt"%string, RegularFile (Some [x68; x69]))]
  else if String.eqb path "locked.swift" then RegularFile None
  else if String.eqb path "README.md" then RegularFile (Some [x68; x69])
  else Absent.

(** A file of [2^32] spaces. *)
Definition big_file : list byte := repeat x20 (Z.to_nat (2 ^ 32)).

Definition big_swift : MemoryBuffer := mkMemoryBuffer "big.swift" big_file.

End Example.

(** * Properties *)

(** ** The timing probe *)

Section ProbeFacts.

Variable CLOCKS_PER_SEC : Z.
Variable std_clock : nat -> Z.
Variable steady_clock_now : nat -> Z.

Local Abbreviation cpu := (cpu_sample CLOCKS_PER_SEC std_clock).
Local Abbreviation wall := (wall_sample steady_clock_now).
Local Abbreviation accumulated :=
  (accumulated CLOCKS_PER_SEC std_clock steady_clock_now).

(** [measure] samples both clocks, runs [body] once on the state it was
    given, and samples both clocks again. *)
Lemma measure_unfold (Captured : Type)
    (body : World * Captured -> World * Captured)
    (w : World) (s : Captured) :
  measure CLOCKS_PER_SEC std_clock steady_clock_now body (w, s) =
  let st := body (tick_now (tick_clock w), s) in
  ((tick_now (tick_clock (fst st)), snd st),
   (steady_clock_now (now_reads (fst st)) - steady_clock_now (now_reads w),
    (std_clock (clock_reads (fst st)) - std_clock (clock_reads w))
    * clockMultiply CLOCKS_PER_SEC)).
Proof. reflexivity. Qed.

(** A measured parse: one log entry, two reads of each clock. *)
Lemma measure_parse_body X buffer opts w fr :
  measure CLOCKS_PER_SEC std_clock steady_clock_now
          (parse_body X buffer opts) (w, fr) =
  ((after_calls X opts [buffer] w, set_err (performParse X buffer opts) fr),
   (wall (now_reads w), cpu (clock_reads w))).
Proof.
  rewrite measure_unfold. unfold after_calls, parse_body. cbn.
  rewrite !Nat.add_succ_r, !Nat.add_0_r. reflexivity.
Qed.

Lemma after_calls_app X opts bs1 bs2 w :
  after_calls X opts (bs1 ++ bs2) w =
  after_calls X opts bs2 (after_calls X opts bs1 w).
Proof.
  unfold after_calls. cbn. rewrite map_app, length_app, app_assoc.
  f_equal; lia.
Qed.

Lemma after_calls_nil X opts w : after_calls X opts [] w = w.
Proof.
  destruct w. unfold after_calls. cbn.
  rewrite !Nat.add_0_r, app_nil_r. reflexivity.
Qed.

Lemma sum_samples_app sample start n m :
  sum_samples sample start (n + m) =
  sum_samples sample start n + sum_samples sample (start + 2 * n) m.
Proof.
  revert start. induction n as [|n IH]; intros start; cbn [sum_samples Nat.add].
  - rewrite Nat.add_0_r. lia.
  - rewrite IH. replace (S (S start) + 2 * n)%nat with (start + 2 * S n)%nat by lia.
    lia.
Qed.

Lemma accumulated_O w fr : err fr = None -> accumulated w fr 0 None = fr.
Proof.
  destruct fr as [t c e]. cbn. intros ->. unfold accumulated. cbn.
  rewrite !Z.add_0_r. reflexivity.
Qed.

Lemma accumulated_1 w fr e :
  accumulated w fr 1 e =
  mkFrame (tDuration fr + wall (now_reads w))
          (cDuration fr + cpu (clock_reads w)) e.
Proof.
  unfold accumulated. cbn [sum_samples]. rewrite !Z.add_0_r. reflexivity.
Qed.

Lemma accumulated_step X opts b w fr n e :
  accumulated (after_calls X opts [b] w)
              (accumulated w fr 1 None) n e =
  accumulated w fr (S n) e.
Proof.
  unfold accumulated. cbn [tDuration cDuration after_calls now_reads
    clock_reads List.length sum_samples].
  replace (now_reads w + 2 * 1)%nat with (S (S (now_reads w))) by lia.
  replace (clock_reads w + 2 * 1)%nat with (S (S (clock_reads w))) by lia.
  f_equal; lia.
Qed.

Lemma accumulated_add X opts bs w fr n m e :
  List.length bs = n ->
  accumulated (after_calls X opts bs w) (accumulated w fr n None) m e =
  accumulated w fr (n + m) e.
Proof.
  intros <-. unfold accumulated.
  cbn [tDuration cDuration after_calls now_reads clock_reads].
  rewrite !sum_samples_app. f_equal; lia.
Qed.

(** The inner loop runs through a prefix of buffers that all parse. *)
Lemma each_buffer_prefix X opts pre rest w fr :
  (forall b, In b pre -> performParse X b opts = None) ->
  err fr = None ->
  each_buffer CLOCKS_PER_SEC std_clock steady_clock_now X opts
              (pre ++ rest) (w, fr) =
  each_buffer CLOCKS_PER_SEC std_clock steady_clock_now X opts rest
              (after_calls X opts pre w,
               accumulated w fr (List.length pre) None).
Proof.
  revert w fr. induction pre as [|b pre IH]; intros w fr Hok Herr.
  - cbn [app List.length]. rewrite after_calls_nil, accumulated_O by exact Herr.
    reflexivity.
  - cbn [app each_buffer]. rewrite measure_parse_body.
    rewrite (Hok b (or_introl eq_refl)).
    cbn [snd fst set_err err Error_bool tDuration cDuration].
    rewrite <- (accumulated_1 w fr None).
    rewrite IH; [| intros b' Hb'; apply Hok; right; exact Hb' | reflexivity ].
    change (b :: pre) with ([b] ++ pre).
    rewrite after_calls_app.
    cbn [List.length app].
    rewrite accumulated_step. reflexivity.
Qed.

Lemma each_buffer_ok X opts buffers w fr :
  (forall b, In b buffers -> performParse X b opts = None) ->
  err fr = None ->
  each_buffer CLOCKS_PER_SEC std_clock steady_clock_now X opts
              buffers (w, fr) =
  ((after_calls X opts buffers w,
    accumulated w fr (List.length buffers) None), false).
Proof.
  intros Hok Herr.
  rewrite <- (app_nil_r buffers) at 1.
  rewrite each_buffer_prefix by assumption. reflexivity.
Qed.

Lemma each_buffer_fail X opts pre b post msg w fr :
  (forall b', In b' pre -> performParse X b' opts = None) ->
  performParse X b opts = Some msg ->
  err fr = None ->
  each_buffer CLOCKS_PER_SEC std_clock steady_clock_now X opts
              (pre ++ b :: post) (w, fr) =
  ((after_calls X opts (pre ++ [b]) w,
    accumulated w fr (List.length pre) (Some msg)), true).
Proof.
  intros Hok Hfail Herr.
  rewrite each_buffer_prefix by assumption.
  cbn [each_buffer]. rewrite measure_parse_body, Hfail.
  cbn [snd fst set_err err Error_bool].
  rewrite after_calls_app. reflexivity.
Qed.

Lemma passes_S n buffers : passes (S n) buffers = buffers ++ passes n buffers.
Proof. reflexivity. Qed.

Lemma length_passes n buffers :
  List.length (passes n buffers) = (n * List.length buffers)%nat.
Proof.
  induction n as [|n IH]; [reflexivity|].
  rewrite passes_S, length_app, IH. reflexivity.
Qed.

Lemma each_iteration_ok X opts buffers n w fr :
  (forall b, In b buffers -> performParse X b opts = None) ->
  err fr = None ->
  each_iteration CLOCKS_PER_SEC std_clock steady_clock_now X opts
                 buffers n (w, fr) =
  ((after_calls X opts (passes n buffers) w,
    accumulated w fr (n * List.length buffers) None), false).
Proof.
  intros Hok. revert w fr. induction n as [|n IH]; intros w fr Herr.
  - cbn [each_iteration Nat.mul]. unfold passes. cbn [repeat List.concat].
    rewrite after_calls_nil, accumulated_O by exact Herr. reflexivity.
  - cbn [each_iteration]. rewrite each_buffer_ok by assumption.
    rewrite IH by reflexivity.
    rewrite passes_S, after_calls_app.
    rewrite (accumulated_add X opts buffers) by reflexivity.
    reflexivity.
Qed.

Lemma each_iteration_fail X opts pre b post msg n w fr :
  (forall b', In b' pre -> performParse X b' opts = None) ->
  performParse X b opts = Some msg ->
  err fr = None ->
  each_iteration CLOCKS_PER_SEC std_clock steady_clock_now X opts
                 (pre ++ b :: post) (S n) (w, fr) =
  ((after_calls X opts (pre ++ [b]) w,
    accumulated w fr (List.length pre) (Some msg)), true).
Proof.
  intros Hok Hfail Herr. cbn [each_iteration].
  rewrite (each_buffer_fail X opts pre b post msg) by assumption.
  reflexivity.
Qed.

End ProbeFacts.

(** ** The measurement loop *)

Section RunFacts.

Variable CLOCKS_PER_SEC : Z.
Variable std_clock : nat -> Z.
Variable steady_clock_now : nat -> Z.

Local Abbreviation cpu := (cpu_sample CLOCKS_PER_SEC std_clock).
Local Abbreviation wall := (wall_sample steady_clock_now).
Local Abbreviation accumulated :=
  (accumulated CLOCKS_PER_SEC std_clock steady_clock_now).
Local Abbreviation perform_loops :=
  (perform_loops CLOCKS_PER_SEC std_clock steady_clock_now).
Local Abbreviation perform :=
  (perform CLOCKS_PER_SEC std_clock steady_clock_now).

Lemma perform_loops_unfold X buffers opts iteration w :
  perform_loops X buffers opts iteration w =
  each_iteration CLOCKS_PER_SEC std_clock steady_clock_now X opts buffers
                 iteration (started X w, initial_frame).
Proof.
  unfold perform_loops, started, header_of, print_outs. cbn.
  rewrite <- app_assoc. reflexivity.
Qed.

Lemma perform_loops_ok X buffers opts iteration w :
  (forall b, In b buffers -> performParse X b opts = None) ->
  perform_loops X buffers opts iteration w =
  ((after_calls X opts (passes iteration buffers) (started X w),
    accumulated w initial_frame (iteration * List.length buffers) None),
   false).
Proof.
  intros Hok. rewrite perform_loops_unfold.
  rewrite each_iteration_ok by (assumption || reflexivity). reflexivity.
Qed.

Lemma perform_loops_fail X pre b post msg opts n w :
  (forall b', In b' pre -> performParse X b' opts = None) ->
  performParse X b opts = Some msg ->
  perform_loops X (pre ++ b :: post) opts (S n) w =
  ((after_calls X opts (pre ++ [b]) (started X w),
    accumulated w initial_frame (List.length pre) (Some msg)), true).
Proof.
  intros Hok Hfail. rewrite perform_loops_unfold.
  rewrite (each_iteration_fail CLOCKS_PER_SEC std_clock steady_clock_now
             X opts pre b post msg) by (assumption || reflexivity).
  reflexivity.
Qed.

Lemma perform_completed X buffers opts iteration totalBytes totalLines w w' fr :
  perform_loops X buffers opts iteration w = ((w', fr), false) ->
  perform X buffers opts iteration totalBytes totalLines w =
  (print_outs (report_lines fr totalBytes totalLines) w', None).
Proof.
  intros H. unfold perform. rewrite H. reflexivity.
Qed.

Lemma perform_returned X buffers opts iteration totalBytes totalLines w w' fr :
  perform_loops X buffers opts iteration w = ((w', fr), true) ->
  perform X buffers opts iteration totalBytes totalLines w = (w', err fr).
Proof.
  intros H. unfold perform. rewrite H. reflexivity.
Qed.

(** C2. When every buffer of the corpus parses, a run makes exactly
    [iteration * corpus size] parse invocations, in corpus order within each
    pass, every one of them inside one [measure] call (two reads of each
    clock per invocation), and reports success; and [measure] runs the
    operation it wraps exactly once, between its two pairs of clock
    samples. *)
Theorem run_makes_iterations_times_corpus_parses
    X buffers opts iteration totalBytes totalLines w
    (Hok : forall b, In b buffers -> performParse X b opts = None) :
  let r := perform X buffers opts iteration totalBytes totalLines w in
  snd r = None
  /\ parse_log (fst r) =
     parse_log w ++ map (call_of X opts) (passes iteration buffers)
  /\ List.length (parse_log (fst r)) =
     (List.length (parse_log w) + iteration * List.length buffers)%nat
  /\ clock_reads (fst r) =
     (clock_reads w + 2 * (iteration * List.length buffers))%nat
  /\ now_reads (fst r) =
     (now_reads w + 2 * (iteration * List.length buffers))%nat
  /\ (forall (Captured : Type) (body : World * Captured -> World * Captured)
             (w0 : World) (s : Captured),
        fst (measure CLOCKS_PER_SEC std_clock steady_clock_now body (w0, s)) =
        let st := body (tick_now (tick_clock w0), s) in
        (tick_now (tick_clock (fst st)), snd st))
  /\ (forall b w0 fr,
        parse_log (fst (fst (measure CLOCKS_PER_SEC std_clock steady_clock_now
                                     (parse_body X b opts) (w0, fr)))) =
        parse_log w0 ++ [call_of X opts b]).
Proof.
  intros r. subst r.
  rewrite (perform_completed X buffers opts iteration totalBytes totalLines w
             _ _ (perform_loops_ok X buffers opts iteration w Hok)).
  cbn [fst snd print_outs after_calls started parse_log clock_reads now_reads].
  rewrite length_app, length_map, length_passes.
  repeat split.
Qed.

(** C4. When the buffers before [b] parse and [b] fails, a run of at least
    one iteration returns from inside the first pass with [b]'s failure: the
    log holds the parses of the buffers before [b] and of [b] and nothing
    after, no report line follows the header, and at the return the
    accumulators hold the sums of the samples of the successful parses only;
    the samples of the failing parse are dropped. *)
Theorem failure_stops_the_run
    X pre b post msg opts iteration totalBytes totalLines w
    (Hpre : forall b', In b' pre -> performParse X b' opts = None)
    (Hfail : performParse X b opts = Some msg)
    (Hiter : iteration <> O) :
  let buffers := pre ++ b :: post in
  let loops := perform_loops X buffers opts iteration w in
  let fr := snd (fst loops) in
  let r := perform X buffers opts iteration totalBytes totalLines w in
  snd loops = true
  /\ r = (fst (fst loops), Some msg)
  /\ parse_log (fst r) =
     parse_log w ++ map (call_of X opts) pre ++ [call_of X opts b]
  /\ List.length (parse_log (fst r)) =
     (List.length (parse_log w) + List.length pre + 1)%nat
  /\ outs (fst r) = outs w ++ header_of X
  /\ tDuration fr = sum_samples wall (now_reads w) (List.length pre)
  /\ cDuration fr = sum_samples cpu (clock_reads w) (List.length pre).
Proof.
  destruct iteration as [|n]; [congruence|].
  intros buffers loops fr r. subst r fr loops buffers.
  rewrite (perform_returned X (pre ++ b :: post) opts (S n) totalBytes
             totalLines w _ _
             (perform_loops_fail X pre b post msg opts n w Hpre Hfail)).
  rewrite (perform_loops_fail X pre b post msg opts n w Hpre Hfail).
  cbn [fst snd after_calls started print_outs parse_log outs err tDuration
       cDuration accumulated initial_frame clock_reads now_reads].
  rewrite map_app, !length_app, length_map. cbn [map List.length].
  unfold Chrono.zero.
  repeat split; try reflexivity; try lia.
Qed.

Lemma passes_nil n : passes n [] = [].
Proof. induction n as [|n IH]; [reflexivity|]. rewrite passes_S. exact IH. Qed.

(** The corpus splits at its first buffer that fails to parse, if any. *)
Lemma first_failure X opts buffers :
  (forall b, In b buffers -> performParse X b opts = None)
  \/ exists pre b post msg,
       buffers = pre ++ b :: post
       /\ (forall b', In b' pre -> performParse X b' opts = None)
       /\ performParse X b opts = Some msg.
Proof.
  induction buffers as [|b0 rest IH].
  - left. intros b [].
  - destruct (performParse X b0 opts) as [msg|] eqn:E0.
    + right. exists [], b0, rest, msg. repeat split; auto. intros b' [].
    + destruct IH as [Hall | (pre & b & post & msg & -> & Hpre & Hb)].
      * left. intros b [<- | Hin]; auto.
      * right. exists (b0 :: pre), b, post, msg. repeat split; auto.
        intros b' [<- | Hin]; auto.
Qed.

(** A run that leaves its loops without returning made every parse of every
    pass, and its accumulators hold the sums of all their samples. *)
Lemma completed_run_inv X buffers opts iteration w w' fr :
  perform_loops X buffers opts iteration w = ((w', fr), false) ->
  w' = after_calls X opts (passes iteration buffers) (started X w)
  /\ fr = accumulated w initial_frame (iteration * List.length buffers) None.
Proof.
  intros Hrun.
  destruct iteration as [|n].
  - rewrite perform_loops_unfold in Hrun. cbn [each_iteration] in Hrun.
    injection Hrun as <- <-. unfold passes. cbn [repeat List.concat Nat.mul].
    rewrite after_calls_nil.
    rewrite (accumulated_O CLOCKS_PER_SEC std_clock steady_clock_now)
      by reflexivity.
    split; reflexivity.
  - destruct (first_failure X opts buffers)
      as [Hall | (pre & b & post & msg & -> & Hpre & Hb)].
    + rewrite (perform_loops_ok X buffers opts (S n) w Hall) in Hrun.
      injection Hrun as <- <-. split; reflexivity.
    + rewrite (perform_loops_fail X pre b post msg opts n w Hpre Hb) in Hrun.
      discriminate Hrun.
Qed.

Lemma completed_run_outs X buffers opts iteration totalBytes totalLines
    w w' fr :
  perform_loops X buffers opts iteration w = ((w', fr), false) ->
  outs (fst (perform X buffers opts iteration totalBytes totalLines w)) =
  outs w ++ header_of X ++ report_lines fr totalBytes totalLines.
Proof.
  intros Hrun.
  rewrite (perform_completed X buffers opts iteration totalBytes totalLines
             w w' fr Hrun).
  destruct (completed_run_inv X buffers opts iteration w w' fr Hrun) as [-> _].
  cbn [fst print_outs outs after_calls started].
  rewrite <- app_assoc. reflexivity.
Qed.

(** C6. On an empty corpus, or with an iteration count of zero, a run
    succeeds without parsing anything, and its report is the header, a wall
    time of 0 ms and a CPU time of 0 ms, with no throughput line. *)
Theorem empty_corpus_or_no_iteration_reports_zero
    X buffers opts iteration totalBytes totalLines w
    (Hempty : buffers = [] \/ iteration = O) :
  perform X buffers opts iteration totalBytes totalLines w =
  (print_outs (header_of X ++ [WallClockMs 0; CpuTimeMs 0]) w, None).
Proof.
  assert (Hloops : perform_loops X buffers opts iteration w =
                   ((started X w, initial_frame), false)).
  { destruct Hempty as [-> | ->].
    - rewrite perform_loops_ok by (intros b []).
      rewrite passes_nil, after_calls_nil. cbn [List.length].
      rewrite Nat.mul_0_r.
      rewrite (accumulated_O CLOCKS_PER_SEC std_clock steady_clock_now)
        by reflexivity.
      reflexivity.
    - rewrite perform_loops_unfold. reflexivity. }
  rewrite (perform_completed X buffers opts iteration totalBytes totalLines
             w _ _ Hloops).
  unfold started, print_outs. cbn. rewrite <- app_assoc. reflexivity.
Qed.

(** The report of a run whose accumulated CPU time is positive: both
    throughput figures divide by the accumulated CPU time, and neither uses
    the iteration count or the wall time. *)
Lemma report_with_positive_cpu_time fr totalBytes totalLines :
  0 < cDuration fr ->
  report_lines fr totalBytes totalLines =
  [WallClockMs (Z.quot (tDuration fr) 1000000);
   CpuTimeMs (Z.quot (cDuration fr) 1000000);
   ThroughputBytes
     ((totalBytes * 1000000000) mod UINTMAX_MAX_plus_1 / cDuration fr);
   ThroughputLines
     ((totalLines * 1000000000) mod UINTMAX_MAX_plus_1 / cDuration fr)].
Proof.
  intros Hpos. unfold report_lines.
  destruct (Z.ltb_spec 0 (cDuration fr)) as [_ | Hle]; [reflexivity | lia].
Qed.

Lemma report_without_cpu_time fr totalBytes totalLines :
  cDuration fr <= 0 ->
  report_lines fr totalBytes totalLines =
  [WallClockMs (Z.quot (tDuration fr) 1000000);
   CpuTimeMs (Z.quot (cDuration fr) 1000000)].
Proof.
  intros Hle. unfold report_lines.
  destruct (Z.ltb_spec 0 (cDuration fr)) as [Hpos | _]; [lia | reflexivity].
Qed.

(** With one iteration, and totals that fit [unsigned int], the figure of
    the report is the specified one. *)
Lemma throughput_as_specified_one_iteration total cpu_ns :
  0 <= total < UINT_MAX_plus_1 ->
  (total * 1000000000) mod UINTMAX_MAX_plus_1 / cpu_ns =
  throughput_as_specified total 1 cpu_ns.
Proof.
  unfold UINT_MAX_plus_1, UINTMAX_MAX_plus_1, throughput_as_specified.
  intros Htotal. rewrite Z.mod_small by lia.
  change (Z.of_nat 1) with 1. rewrite Z.mul_1_r. reflexivity.
Qed.

(** C3. In the report of a completed run, the byte/s line and the line/s
    line are both present exactly when the accumulated CPU time is strictly
    positive; when it is zero the report consists of the two time lines
    alone, the CPU one showing 0. *)
Theorem throughput_lines_iff_cpu_time_positive
    X buffers opts iteration totalBytes totalLines w w' fr
    (Hrun : perform_loops X buffers opts iteration w = ((w', fr), false)) :
  let report := report_lines fr totalBytes totalLines in
  outs (fst (perform X buffers opts iteration totalBytes totalLines w)) =
    outs w ++ header_of X ++ report
  /\ cDuration fr =
     sum_samples cpu (clock_reads w) (iteration * List.length buffers)
  /\ (0 < cDuration fr <-> exists v, In (ThroughputBytes v) report)
  /\ (0 < cDuration fr <-> exists v, In (ThroughputLines v) report)
  /\ (0 < cDuration fr <-> exists l, In l report /\ is_throughput l = true)
  /\ (cDuration fr = 0 ->
      report = [WallClockMs (Z.quot (tDuration fr) 1000000); CpuTimeMs 0]).
Proof.
  intros report. subst report.
  split; [exact (completed_run_outs X buffers opts iteration totalBytes
                   totalLines w w' fr Hrun)|].
  split.
  { destruct (completed_run_inv X buffers opts iteration w w' fr Hrun)
      as [_ ->]. reflexivity. }
  destruct (Z.lt_ge_cases 0 (cDuration fr)) as [Hpos | Hle].
  - rewrite (report_with_positive_cpu_time fr totalBytes totalLines Hpos).
    repeat split; intros; try lia.
    + eexists. right. right. left. reflexivity.
    + eexists. right. right. right. left. reflexivity.
    + eexists. split; [right; right; left; reflexivity | reflexivity].
  - rewrite (report_without_cpu_time fr totalBytes totalLines Hle).
    repeat split; intros H; try lia.
    + destruct H as [v [H | [H | []]]]; discriminate H.
    + destruct H as [v [H | [H | []]]]; discriminate H.
    + destruct H as [l [[<- | [<- | []]] H]]; discriminate H.
    + rewrite H. reflexivity.
Qed.

(** C7, as amended.  In the report of a completed run the wall-ms value is
    the accumulated wall duration, and the cpu-ms value the accumulated CPU
    duration, each divided by [10^6] nanoseconds with the quotient truncated
    toward zero (not rounded to the nearest millisecond): whole milliseconds
    only, the remainder dropped. *)
Theorem report_times_are_truncated_to_milliseconds
    X buffers opts iteration totalBytes totalLines w w' fr
    (Hrun : perform_loops X buffers opts iteration w = ((w', fr), false)) :
  let tDisplay := Z.quot (tDuration fr) 1000000 in
  let cDisplay := Z.quot (cDuration fr) 1000000 in
  (exists throughput,
     outs (fst (perform X buffers opts iteration totalBytes totalLines w)) =
     outs w ++ header_of X
     ++ WallClockMs tDisplay :: CpuTimeMs cDisplay :: throughput)
  /\ tDuration fr =
     sum_samples wall (now_reads w) (iteration * List.length buffers)
  /\ cDuration fr =
     sum_samples cpu (clock_reads w) (iteration * List.length buffers)
  /\ Z.abs (tDisplay * 1000000) <= Z.abs (tDuration fr)
     < Z.abs (tDisplay * 1000000) + 1000000
  /\ Z.abs (cDisplay * 1000000) <= Z.abs (cDuration fr)
     < Z.abs (cDisplay * 1000000) + 1000000.
Proof.
  intros tDisplay cDisplay.
  split.
  { rewrite (completed_run_outs X buffers opts iteration totalBytes
               totalLines w w' fr Hrun).
    unfold report_lines. cbn [app]. eexists. reflexivity. }
  destruct (completed_run_inv X buffers opts iteration w w' fr Hrun)
    as [_ Hfr].
  split; [rewrite Hfr; reflexivity|].
  split; [rewrite Hfr; reflexivity|].
  subst tDisplay cDisplay.
  assert (Htrunc : forall a, Z.abs (Z.quot a 1000000 * 1000000) <= Z.abs a
                             < Z.abs (Z.quot a 1000000 * 1000000) + 1000000).
  { intros a.
    pose proof (Z.quot_rem' a 1000000) as Hqr.
    destruct (Z.le_gt_cases 0 a) as [Hnn | Hneg].
    - pose proof (Z.rem_bound_pos a 1000000 Hnn ltac:(lia)). lia.
    - pose proof (Z.rem_bound_pos_neg a 1000000 ltac:(lia) ltac:(lia)). lia. }
  split; apply Htrunc.
Qed.

End RunFacts.

(** ** The corpus loader *)

Lemma load_directory path es buffers :
  _loadSwiftFilesRecursively path (Directory es) buffers =
  load_entries es buffers.
Proof.
  cbn [_loadSwiftFilesRecursively]. revert buffers.
  induction es as [|[entry_path entry] es IH]; intros buffers.
  - reflexivity.
  - cbn [load_entries]. apply IH.
Qed.

Lemma load_non_directory path node buffers :
  is_directory node = false ->
  _loadSwiftFilesRecursively path node buffers =
  if endswith path ".swift" then
    match getFile path node with
    | Some buffer => buffers ++ [buffer]
    | None => buffers
    end
  else buffers.
Proof. destruct node; [reflexivity | reflexivity | discriminate]. Qed.

Lemma loadSources_app fs ps1 ps2 buffers :
  loadSources fs (ps1 ++ ps2) buffers =
  loadSources fs ps2 (loadSources fs ps1 buffers).
Proof.
  revert buffers. induction ps1 as [|p ps1 IH]; intros buffers.
  - reflexivity.
  - cbn [app loadSources]. apply IH.
Qed.

Lemma load_entries_app es1 es2 buffers :
  load_entries (es1 ++ es2) buffers =
  load_entries es2 (load_entries es1 buffers).
Proof.
  revert buffers. induction es1 as [|[p n] es1 IH]; intros buffers.
  - reflexivity.
  - cbn [app load_entries]. apply IH.
Qed.

(** A path on which the loader adds nothing leaves no trace in the corpus. *)
Lemma loadSources_skip fs ps1 p ps2 buffers :
  (forall bs, _loadSwiftFilesRecursively p (fs p) bs = bs) ->
  loadSources fs (ps1 ++ p :: ps2) buffers = loadSources fs (ps1 ++ ps2) buffers.
Proof.
  intros Hskip. rewrite !loadSources_app. cbn [loadSources].
  rewrite Hskip. reflexivity.
Qed.

Lemma substring_all s : substring 0 (String.length s) s = s.
Proof.
  induction s as [|c s IH]; [reflexivity|].
  cbn [String.length substring]. rewrite IH. reflexivity.
Qed.

Lemma length_append s1 s2 :
  String.length (s1 ++ s2) = (String.length s1 + String.length s2)%nat.
Proof.
  induction s1 as [|c s1 IH]; [reflexivity|].
  cbn [String.append String.length]. rewrite IH. reflexivity.
Qed.

(** [endswith] holds exactly of the strings that are something followed by
    the suffix. *)
Lemma endswith_spec s suffix :
  endswith s suffix = true <-> exists stem, s = (stem ++ suffix)%string.
Proof.
  unfold endswith. rewrite andb_true_iff, Nat.leb_le, String.eqb_eq.
  split.
  - intros [Hle Hsub]. revert Hle Hsub.
    induction s as [|c s IH]; intros Hle Hsub.
    + exists EmptyString. destruct suffix; [reflexivity | cbn in Hle; lia].
    + destruct (Nat.eq_dec (String.length suffix) (String.length (String c s)))
        as [Heq | Hne].
      * exists EmptyString. rewrite Heq, Nat.sub_diag, substring_all in Hsub.
        cbn [String.append]. exact Hsub.
      * cbn [String.length] in Hle, Hne, Hsub.
        replace (S (String.length s) - String.length suffix)%nat
          with (S (String.length s - String.length suffix)) in Hsub by lia.
        cbn [substring] in Hsub.
        destruct IH as [stem Hstem]; [lia | exact Hsub |].
        exists (String c stem). cbn [String.append]. rewrite <- Hstem.
        reflexivity.
  - intros [stem ->]. rewrite length_append. split; [lia|].
    replace (String.length stem + String.length suffix - String.length suffix)%nat
      with (String.length stem) by lia.
    induction stem as [|c stem IH].
    + cbn [String.append String.length]. apply substring_all.
    + cbn [String.append String.length substring]. exact IH.
Qed.

(** C8. A listed path that cannot be read adds no buffer, whatever its name,
    and the loader goes on with the paths after it: the corpus, and with it
    the whole run of the tool (output, diagnostics and exit status), is the
    one obtained without that path. *)
Theorem unreadable_path_is_skipped
    CLOCKS_PER_SEC std_clock steady_clock_now SWIFT_BUILD_SWIFT_SYNTAX
    (fs : string -> FsNode) (ps1 : list string) (p : string)
    (ps2 : list string) (buffers : list MemoryBuffer)
    (Hunreadable : unreadable (fs p) = true) :
  _loadSwiftFilesRecursively p (fs p) buffers = buffers
  /\ loadSources fs (ps1 ++ p :: ps2) buffers =
     loadSources fs ps2 (loadSources fs ps1 buffers)
  /\ loadSources fs (ps1 ++ p :: ps2) buffers =
     loadSources fs (ps1 ++ ps2) buffers
  /\ forall options w,
       swift_parse_test_main CLOCKS_PER_SEC std_clock steady_clock_now
         SWIFT_BUILD_SWIFT_SYNTAX fs
         (with_input_paths options (ps1 ++ p :: ps2)) w =
       swift_parse_test_main CLOCKS_PER_SEC std_clock steady_clock_now
         SWIFT_BUILD_SWIFT_SYNTAX fs
         (with_input_paths options (ps1 ++ ps2)) w.
Proof.
  assert (Hskip : forall bs, _loadSwiftFilesRecursively p (fs p) bs = bs).
  { intros bs. destruct (fs p) as [|[bytes|]|es]; try discriminate Hunreadable;
      cbn [_loadSwiftFilesRecursively getFile];
      destruct (endswith p ".swift"); reflexivity. }
  split; [apply Hskip|].
  split.
  { rewrite loadSources_app. cbn [loadSources]. rewrite Hskip. reflexivity. }
  split; [apply loadSources_skip; exact Hskip|].
  intros options w. unfold swift_parse_test_main, with_input_paths.
  cbn [InputPaths Executors Iterations SkipBodies].
  rewrite (loadSources_skip fs ps1 p ps2 [] Hskip). reflexivity.
Qed.

(** C10. A path that is not a directory contributes a buffer only if it
    ends with ".swift": without the suffix nothing is added, also when the
    file is readable and was listed directly, and the corpus is the one
    obtained without that path. *)
Theorem file_without_swift_suffix_is_excluded
    (fs : string -> FsNode) (ps1 : list string) (p : string)
    (ps2 : list string) (buffers : list MemoryBuffer)
    (Hfile : is_directory (fs p) = false) :
  (_loadSwiftFilesRecursively p (fs p) buffers <> buffers ->
   exists stem, p = (stem ++ ".swift")%string)
  /\ ((forall stem, p <> (stem ++ ".swift")%string) ->
      _loadSwiftFilesRecursively p (fs p) buffers = buffers
      /\ loadSources fs (ps1 ++ p :: ps2) buffers =
         loadSources fs (ps1 ++ ps2) buffers)
  /\ (forall bytes,
        fs p = RegularFile (Some bytes) ->
        _loadSwiftFilesRecursively p (fs p) buffers =
        if endswith p ".swift"
        then buffers ++ [mkMemoryBuffer p bytes]
        else buffers).
Proof.
  assert (Hno : endswith p ".swift" = false ->
                forall bs, _loadSwiftFilesRecursively p (fs p) bs = bs).
  { intros Hends bs. rewrite (load_non_directory p (fs p) bs Hfile), Hends.
    reflexivity. }
  split; [|split].
  - intros Hadded. apply endswith_spec.
    destruct (endswith p ".swift") eqn:Hends; [reflexivity|].
    exfalso. apply Hadded. apply Hno. reflexivity.
  - intros Hsuffix.
    assert (Hends : endswith p ".swift" = false).
    { destruct (endswith p ".swift") eqn:Hends; [|reflexivity].
      apply endswith_spec in Hends. destruct Hends as [stem Hstem].
      exfalso. exact (Hsuffix stem Hstem). }
    split; [apply Hno; exact Hends|].
    apply loadSources_skip. apply Hno. exact Hends.
  - intros bytes Hnode.
    rewrite (load_non_directory p (fs p) buffers Hfile), Hnode. reflexivity.
Qed.

(** ** The corpus statistics *)

Lemma count_corpus_from buffers b l :
  count_corpus buffers (b mod UINT_MAX_plus_1) (l mod UINT_MAX_plus_1) =
  ((b + true_bytes buffers) mod UINT_MAX_plus_1,
   (l + true_lines buffers) mod UINT_MAX_plus_1).
Proof.
  revert b l. induction buffers as [|buffer rest IH]; intros b l.
  - cbn [count_corpus true_bytes true_lines]. rewrite !Z.add_0_r. reflexivity.
  - cbn [count_corpus true_bytes true_lines].
    rewrite !Zplus_mod_idemp_l, IH, !Z.add_assoc. reflexivity.
Qed.

Lemma true_bytes_nonneg buffers : 0 <= true_bytes buffers.
Proof.
  induction buffers as [|b rest IH]; cbn [true_bytes]; unfold getBufferSize; lia.
Qed.

Lemma true_lines_nonneg buffers : 0 <= true_lines buffers.
Proof. induction buffers as [|b rest IH]; cbn [true_lines]; lia. Qed.

Lemma count_repeat_other c b n :
  Byte.eqb b c = false -> count c (repeat b n) = O.
Proof.
  intros Hbc. induction n as [|n IH]; cbn [repeat count]; [reflexivity|].
  rewrite Hbc. exact IH.
Qed.

(** A corpus of one file of [2^32] bytes and one of 4 bytes is counted as
    4 bytes. *)
Example four_gibibytes_are_counted_as_none :
  true_bytes [Example.big_swift; Example.a_swift] = 2 ^ 32 + 4
  /\ count_corpus [Example.big_swift; Example.a_swift] 0 0 = (4, 2).
Proof.
  assert (Hbytes : true_bytes [Example.big_swift; Example.a_swift]
                   = 2 ^ 32 + 4).
  { cbn [true_bytes]. unfold getBufferSize, Example.big_swift.
    cbn [getBuffer]. unfold Example.big_file.
    rewrite repeat_length, Z2Nat.id by lia. reflexivity. }
  assert (Hlines : true_lines [Example.big_swift; Example.a_swift] = 2).
  { cbn [true_lines]. unfold Example.big_swift. cbn [getBuffer].
    unfold Example.big_file. rewrite count_repeat_other by reflexivity.
    reflexivity. }
  split; [exact Hbytes|].
  change (count_corpus [Example.big_swift; Example.a_swift] 0 0)
    with (count_corpus [Example.big_swift; Example.a_swift]
            (0 mod UINT_MAX_plus_1) (0 mod UINT_MAX_plus_1)).
  rewrite count_corpus_from, Hbytes, Hlines. reflexivity.
Qed.

(** C9. The two totals are sums kept in [unsigned int] variables: the
    reported byte and line totals are the true totals modulo [2^32] (equal
    to them below [2^32], short of them by a multiple of [2^32] from there
    on), and these wrapped values are what the preamble prints and what the
    throughput figures of every report are computed from. *)
Theorem corpus_totals_wrap_modulo_2_32
    CLOCKS_PER_SEC std_clock steady_clock_now SWIFT_BUILD_SWIFT_SYNTAX
    (fs : string -> FsNode) (options : SwiftParseTestOptions) (w : World) :
  let buffers := loadSources fs (InputPaths options) [] in
  let byteCount := true_bytes buffers mod 2 ^ 32 in
  let lineCount := true_lines buffers mod 2 ^ 32 in
  count_corpus buffers 0 0 = (byteCount, lineCount)
  /\ byteCount = true_bytes buffers - 2 ^ 32 * (true_bytes buffers / 2 ^ 32)
  /\ lineCount = true_lines buffers - 2 ^ 32 * (true_lines buffers / 2 ^ 32)
  /\ swift_parse_test_main CLOCKS_PER_SEC std_clock steady_clock_now
       SWIFT_BUILD_SWIFT_SYNTAX fs options w =
     (let r :=
        each_executor CLOCKS_PER_SEC std_clock steady_clock_now
          SWIFT_BUILD_SWIFT_SYNTAX (Executors options) buffers
          (exec_options_of options) (Iterations options) byteCount lineCount
          (print_outs
             (preamble buffers byteCount lineCount (Iterations options)) w) in
      match snd r with
      | Some message => (print_errs ("error: " ++ message) (fst r), 1)
      | None => (fst r, 0)
      end)
  /\ forall fr,
       0 < cDuration fr ->
       report_lines fr byteCount lineCount =
       [WallClockMs (Z.quot (tDuration fr) 1000000);
        CpuTimeMs (Z.quot (cDuration fr) 1000000);
        ThroughputBytes
          ((true_bytes buffers mod 2 ^ 32) * 1000000000 / cDuration fr);
        ThroughputLines
          ((true_lines buffers mod 2 ^ 32) * 1000000000 / cDuration fr)].
Proof.
  intros buffers byteCount lineCount.
  assert (Hcount : count_corpus buffers 0 0 = (byteCount, lineCount)).
  { exact (count_corpus_from buffers 0 0). }
  split; [exact Hcount|].
  split; [subst byteCount; apply Z.mod_eq; lia|].
  split; [subst lineCount; apply Z.mod_eq; lia|].
  split.
  - unfold swift_parse_test_main. fold buffers. rewrite Hcount.
    fold (exec_options_of options).
    destruct (each_executor _ _ _ _ _ _ _ _ _ _ _) as [w1 [message|]];
      reflexivity.
  - intros fr Hpos.
    rewrite (report_with_positive_cpu_time fr byteCount lineCount Hpos).
    assert (Hb : 0 <= byteCount < 2 ^ 32)
      by (subst byteCount; apply Z.mod_pos_bound; lia).
    assert (Hl : 0 <= lineCount < 2 ^ 32)
      by (subst lineCount; apply Z.mod_pos_bound; lia).
    unfold UINTMAX_MAX_plus_1.
    rewrite !Z.mod_small by lia. reflexivity.
Qed.

(** ** The benchmark controller *)

Section ControllerFacts.

Variable CLOCKS_PER_SEC : Z.
Variable std_clock : nat -> Z.
Variable steady_clock_now : nat -> Z.
Variable SWIFT_BUILD_SWIFT_SYNTAX : bool.

Local Abbreviation each_executor :=
  (each_executor CLOCKS_PER_SEC std_clock steady_clock_now
                 SWIFT_BUILD_SWIFT_SYNTAX).
Local Abbreviation run_mode :=
  (run_mode CLOCKS_PER_SEC std_clock steady_clock_now
            SWIFT_BUILD_SWIFT_SYNTAX).
Local Abbreviation run_in_order :=
  (run_in_order CLOCKS_PER_SEC std_clock steady_clock_now
                SWIFT_BUILD_SWIFT_SYNTAX).
Local Abbreviation all_succeed :=
  (all_succeed CLOCKS_PER_SEC std_clock steady_clock_now
               SWIFT_BUILD_SWIFT_SYNTAX).

(** The loop over the executors runs through a prefix of runs that all
    succeed. *)
Lemma each_executor_prefix buffers execOptions iterations byteCount lineCount
    pre rest w :
  all_succeed buffers execOptions iterations byteCount lineCount pre w = true ->
  each_executor (pre ++ rest) buffers execOptions iterations
                byteCount lineCount w =
  each_executor rest buffers execOptions iterations byteCount lineCount
    (run_in_order buffers execOptions iterations byteCount lineCount pre w).
Proof.
  revert w. induction pre as [|mode pre IH]; intros w Hall.
  - reflexivity.
  - cbn [all_succeed] in Hall. apply andb_true_iff in Hall.
    destruct Hall as [Hmode Hpre].
    cbn [app each_executor run_in_order].
    unfold run_mode in *.
    destruct (perform _ _ _ _ _ _ _ _ _ _) as [w1 [message|]];
      [discriminate Hmode|].
    cbn [Error_bool fst snd] in *. apply IH. exact Hpre.
Qed.

Lemma each_executor_all buffers execOptions iterations byteCount lineCount
    modes w :
  all_succeed buffers execOptions iterations byteCount lineCount modes w = true ->
  each_executor modes buffers execOptions iterations byteCount lineCount w =
  (run_in_order buffers execOptions iterations byteCount lineCount modes w,
   None).
Proof.
  intros Hall. rewrite <- (app_nil_r modes) at 1.
  rewrite each_executor_prefix by exact Hall. reflexivity.
Qed.

Lemma each_executor_stops buffers execOptions iterations byteCount lineCount
    pre mode post message w :
  all_succeed buffers execOptions iterations byteCount lineCount pre w = true ->
  snd (run_mode buffers execOptions iterations byteCount lineCount mode
         (run_in_order buffers execOptions iterations byteCount lineCount
                       pre w)) = Some message ->
  each_executor (pre ++ mode :: post) buffers execOptions iterations
                byteCount lineCount w =
  (fst (run_mode buffers execOptions iterations byteCount lineCount mode
          (run_in_order buffers execOptions iterations byteCount lineCount
                        pre w)),
   Some message).
Proof.
  intros Hall Hfail. rewrite each_executor_prefix by exact Hall.
  cbn [each_executor]. unfold run_mode in *.
  destruct (perform _ _ _ _ _ _ _ _ _ _) as [w1 e].
  cbn [snd fst] in *. subst e. reflexivity.
Qed.

(** A run writes nothing to the error stream. *)
Lemma perform_errs X buffers opts iteration totalBytes totalLines w :
  errs (fst (perform CLOCKS_PER_SEC std_clock steady_clock_now X buffers opts
                     iteration totalBytes totalLines w)) = errs w.
Proof.
  destruct iteration as [|n].
  - reflexivity.
  - destruct (first_failure X opts buffers)
      as [Hall | (pre & b & post & msg & -> & Hpre & Hb)].
    + rewrite (perform_completed _ _ _ X buffers opts (S n) totalBytes
                 totalLines w _ _
                 (perform_loops_ok _ _ _ X buffers opts (S n) w Hall)).
      reflexivity.
    + rewrite (perform_returned _ _ _ X (pre ++ b :: post) opts (S n)
                 totalBytes totalLines w _ _
                 (perform_loops_fail _ _ _ X pre b post msg opts n w Hpre Hb)).
      reflexivity.
Qed.

Lemma run_in_order_errs buffers execOptions iterations byteCount lineCount
    modes w :
  errs (run_in_order buffers execOptions iterations byteCount lineCount
                     modes w) = errs w.
Proof.
  revert w. induction modes as [|mode modes IH]; intros w.
  - reflexivity.
  - cbn [run_in_order]. rewrite IH. apply perform_errs.
Qed.

(** C5. The controller runs the selected executors in the order given.
    When the executors before [mode] succeed and the run of [mode] fails with
    [message], the tool ends in the world that this failing run left, with
    the line "error: <message>" added to the error stream, and with exit
    status 1, whatever executors were listed after [mode]: none of them is
    run.  When every selected executor succeeds, the tool ends after the
    last run with exit status 0 and an untouched error stream. *)
Theorem controller_stops_at_first_failure
    (fs : string -> FsNode) (options : SwiftParseTestOptions) (w : World) :
  let buffers := loadSources fs (InputPaths options) [] in
  let execOptions := exec_options_of options in
  let iterations := Iterations options in
  let byteCount := fst (count_corpus buffers 0 0) in
  let lineCount := snd (count_corpus buffers 0 0) in
  let w0 := print_outs (preamble buffers byteCount lineCount iterations) w in
  let main := swift_parse_test_main CLOCKS_PER_SEC std_clock steady_clock_now
                SWIFT_BUILD_SWIFT_SYNTAX fs in
  (forall pre mode post message,
     Executors options = pre ++ mode :: post ->
     all_succeed buffers execOptions iterations byteCount lineCount pre w0
       = true ->
     let failing :=
       run_mode buffers execOptions iterations byteCount lineCount mode
         (run_in_order buffers execOptions iterations byteCount lineCount
                       pre w0) in
     snd failing = Some message ->
     main options w = (print_errs ("error: " ++ message) (fst failing), 1)
     /\ main options w = main (with_executors options (pre ++ [mode])) w
     /\ errs (fst (main options w)) = errs w ++ [("error: " ++ message)%string])
  /\ (all_succeed buffers execOptions iterations byteCount lineCount
                  (Executors options) w0 = true ->
      main options w =
      (run_in_order buffers execOptions iterations byteCount lineCount
                    (Executors options) w0, 0)
      /\ errs (fst (main options w)) = errs w).
Proof.
  intros buffers execOptions iterations byteCount lineCount w0 main.
  assert (Hmain : forall modes,
            main (with_executors options modes) w =
            let r := each_executor modes buffers execOptions iterations
                                   byteCount lineCount w0 in
            match snd r with
            | Some message => (print_errs ("error: " ++ message) (fst r), 1)
            | None => (fst r, 0)
            end).
  { intros modes. subst main w0 byteCount lineCount.
    unfold swift_parse_test_main, with_executors.
    cbn [InputPaths Executors Iterations SkipBodies].
    fold buffers. fold (exec_options_of options). fold execOptions.
    fold iterations.
    destruct (count_corpus buffers 0 0) as [bc lc]. cbn [fst snd].
    unfold preamble.
    destruct (each_executor _ _ _ _ _ _ _) as [w1 [message|]]; reflexivity. }
  assert (Hsame : with_executors options (Executors options) = options)
    by (destruct options; reflexivity).
  split.
  - intros pre mode post message Hmodes Hall failing Hfail.
    assert (Hstop : forall post',
              main (with_executors options (pre ++ mode :: post')) w =
              (print_errs ("error: " ++ message) (fst failing), 1)).
    { intros post'. rewrite Hmain.
      rewrite (each_executor_stops buffers execOptions iterations byteCount
                 lineCount pre mode post' message w0 Hall Hfail).
      reflexivity. }
    assert (Hexit : main options w =
                    (print_errs ("error: " ++ message) (fst failing), 1)).
    { rewrite <- Hsame, Hmodes. apply Hstop. }
    split; [exact Hexit|]. split.
    + rewrite Hexit. symmetry. exact (Hstop []).
    + rewrite Hexit. subst failing. cbn [fst print_errs errs].
      unfold run_mode. rewrite perform_errs, run_in_order_errs.
      subst w0. reflexivity.
  - intros Hall.
    assert (Hexit : main options w =
                    (run_in_order buffers execOptions iterations byteCount
                                  lineCount (Executors options) w0, 0)).
    { rewrite <- Hsame at 1. rewrite Hmain.
      rewrite (each_executor_all buffers execOptions iterations byteCount
                 lineCount (Executors options) w0 Hall).
      reflexivity. }
    split; [exact Hexit|].
    rewrite Hexit. cbn [fst]. rewrite run_in_order_errs. reflexivity.
Qed.

End ControllerFacts.

(** * Instances on the example platform *)

Lemma run_makes_iterations_times_corpus_parses_witness :
  (forall b, In b [Example.a_swift; Example.b_swift] ->
             performParse LibParseExecutor b no_options = None)
  /\ List.length
       (parse_log
          (fst (perform Example.CLOCKS_PER_SEC (Example.stepping_clock 1000)
                        (Example.stepping_clock 1000000) LibParseExecutor
                        [Example.a_swift; Example.b_swift] no_options 3 6 3
                        initial_world))) = 6%nat.
Proof.
  assert (Hok : forall b, In b [Example.a_swift; Example.b_swift] ->
                          performParse LibParseExecutor b no_options = None)
    by (intros b _; reflexivity).
  split; [exact Hok|].
  pose proof (run_makes_iterations_times_corpus_parses
                Example.CLOCKS_PER_SEC (Example.stepping_clock 1000)
                (Example.stepping_clock 1000000) LibParseExecutor
                [Example.a_swift; Example.b_swift] no_options 3 6 3
                initial_world Hok) as H.
  cbv zeta in H. destruct H as (_ & _ & Hlen & _). exact Hlen.
Defined.

Lemma failure_stops_the_run_witness :
  (forall b', In b' [Example.a_swift] ->
              performParse Example.picky b' no_options = None)
  /\ performParse Example.picky Example.b_swift no_options
     = Some "cannot parse"%string
  /\ 2%nat <> O
  /\ perform Example.CLOCKS_PER_SEC (Example.stepping_clock 1000)
             (Example.stepping_clock 1000000) Example.picky
             ([Example.a_swift] ++ Example.b_swift :: [Example.a_swift])
             no_options 2 10 5 initial_world
     = (mkWorld 4 4
          [mkParseCall "picky" "a.swift" 0; mkParseCall "picky" "b.swift" 0]
          [Separator; ParserLine "picky"] [],
        Some "cannot parse"%string).
Proof.
  assert (Hpre : forall b', In b' [Example.a_swift] ->
                            performParse Example.picky b' no_options = None)
    by (intros b' [<- | []]; reflexivity).
  assert (Hfail : performParse Example.picky Example.b_swift no_options
                  = Some "cannot parse"%string) by reflexivity.
  assert (Hiter : 2%nat <> O) by discriminate.
  split; [exact Hpre|]. split; [exact Hfail|]. split; [exact Hiter|].
  pose proof (failure_stops_the_run
                Example.CLOCKS_PER_SEC (Example.stepping_clock 1000)
                (Example.stepping_clock 1000000) Example.picky
                [Example.a_swift] Example.b_swift [Example.a_swift]
                "cannot parse" no_options 2 10 5 initial_world
                Hpre Hfail Hiter) as H.
  cbv zeta in H. destruct H as (_ & Hr & _). exact Hr.
Defined.

Lemma empty_corpus_or_no_iteration_reports_zero_witness :
  (@nil MemoryBuffer = [] \/ 3%nat = O)
  /\ perform Example.CLOCKS_PER_SEC (Example.stepping_clock 1000)
             (Example.stepping_clock 1000000) LibParseExecutor
             [] no_options 3 0 0 initial_world
     = (mkWorld 0 0 []
          [Separator; ParserLine "libParse"; WallClockMs 0; CpuTimeMs 0] [],
        None).
Proof.
  split; [left; reflexivity|].
  exact (empty_corpus_or_no_iteration_reports_zero
           Example.CLOCKS_PER_SEC (Example.stepping_clock 1000)
           (Example.stepping_clock 1000000) LibParseExecutor
           [] no_options 3 0 0 initial_world (or_introl eq_refl)).
Defined.

Lemma throughput_lines_iff_cpu_time_positive_witness :
  perform_loops Example.CLOCKS_PER_SEC (Example.stepping_clock 1000)
                (Example.stepping_clock 1000000) LibParseExecutor
                [Example.a_swift] no_options 1 initial_world
  = ((mkWorld 2 2 [mkParseCall "libParse" "a.swift" 0]
        [Separator; ParserLine "libParse"] [],
      mkFrame 1000000 1000000 None), false)
  /\ outs (fst (perform Example.CLOCKS_PER_SEC (Example.stepping_clock 1000)
                        (Example.stepping_clock 1000000) LibParseExecutor
                        [Example.a_swift] no_options 1 4 2 initial_world))
     = [Separator; ParserLine "libParse"; WallClockMs 1; CpuTimeMs 1;
        ThroughputBytes 4000; ThroughputLines 2000].
Proof.
  assert (Hrun :
    perform_loops Example.CLOCKS_PER_SEC (Example.stepping_clock 1000)
                  (Example.stepping_clock 1000000) LibParseExecutor
                  [Example.a_swift] no_options 1 initial_world
    = ((mkWorld 2 2 [mkParseCall "libParse" "a.swift" 0]
          [Separator; ParserLine "libParse"] [],
        mkFrame 1000000 1000000 None), false)) by reflexivity.
  split; [exact Hrun|].
  pose proof (throughput_lines_iff_cpu_time_positive
                Example.CLOCKS_PER_SEC (Example.stepping_clock 1000)
                (Example.stepping_clock 1000000) LibParseExecutor
                [Example.a_swift] no_options 1 4 2 initial_world _ _ Hrun)
    as H.
  cbv zeta in H. destruct H as (Houts & _). exact Houts.
Defined.

Lemma report_times_are_truncated_to_milliseconds_witness :
  perform_loops Example.CLOCKS_PER_SEC (Example.stepping_clock 1999)
                (Example.stepping_clock 1999999) LibParseExecutor
                [Example.a_swift] no_options 1 initial_world
  = ((mkWorld 2 2 [mkParseCall "libParse" "a.swift" 0]
        [Separator; ParserLine "libParse"] [],
      mkFrame 1999999 1999000 None), false)
  /\ exists throughput,
       outs (fst (perform Example.CLOCKS_PER_SEC (Example.stepping_clock 1999)
                          (Example.stepping_clock 1999999) LibParseExecutor
                          [Example.a_swift] no_options 1 4 2 initial_world))
       = [Separator; ParserLine "libParse"]
         ++ WallClockMs 1 :: CpuTimeMs 1 :: throughput.
Proof.
  assert (Hrun :
    perform_loops Example.CLOCKS_PER_SEC (Example.stepping_clock 1999)
                  (Example.stepping_clock 1999999) LibParseExecutor
                  [Example.a_swift] no_options 1 initial_world
    = ((mkWorld 2 2 [mkParseCall "libParse" "a.swift" 0]
          [Separator; ParserLine "libParse"] [],
        mkFrame 1999999 1999000 None), false)) by reflexivity.
  split; [exact Hrun|].
  pose proof (report_times_are_truncated_to_milliseconds
                Example.CLOCKS_PER_SEC (Example.stepping_clock 1999)
                (Example.stepping_clock 1999999) LibParseExecutor
                [Example.a_swift] no_options 1 4 2 initial_world _ _ Hrun)
    as H.
  cbv zeta in H. destruct H as (Houts & _). exact Houts.
Defined.

Lemma controller_stops_at_first_failure_witness :
  let options :=
    mkOptions [LibParse; SwiftParser; LibParse] 1 false ["a.swift"%string] in
  let main :=
    swift_parse_test_main Example.CLOCKS_PER_SEC (Example.stepping_clock 1000)
      (Example.stepping_clock 1000000) false Example.files in
  Executors options = [LibParse] ++ SwiftParser :: [LibParse]
  /\ snd (main options initial_world) = 1
  /\ main options initial_world
     = main (with_executors options [LibParse; SwiftParser]) initial_world
  /\ errs (fst (main options initial_world))
     = ["error: SwiftParser is not supported"%string]
  /\ snd (main (with_executors options [LibParse; LibParse]) initial_world) = 0.
Proof.
  intros options main.
  split; [reflexivity|].
  destruct (controller_stops_at_first_failure
              Example.CLOCKS_PER_SEC (Example.stepping_clock 1000)
              (Example.stepping_clock 1000000) false Example.files
              options initial_world) as [Hstop _].
  destruct (Hstop [LibParse] SwiftParser [LibParse]
                  "SwiftParser is not supported"%string
                  eq_refl eq_refl eq_refl) as (Hexit & Hsame & Herrs).
  destruct (controller_stops_at_first_failure
              Example.CLOCKS_PER_SEC (Example.stepping_clock 1000)
              (Example.stepping_clock 1000000) false Example.files
              (with_executors options [LibParse; LibParse]) initial_world)
    as [_ Hall].
  destruct (Hall eq_refl) as [Hexit0 _].
  split; [subst main; rewrite Hexit; reflexivity|].
  split; [exact Hsame|].
  split; [exact Herrs|].
  subst main. rewrite Hexit0. reflexivity.
Defined.

Lemma unreadable_path_is_skipped_witness :
  unreadable (Example.files "locked.swift") = true
  /\ loadSources Example.files ["a.swift"; "locked.swift"; "src"]%string []
     = [Example.a_swift; mkMemoryBuffer "src/b.swift" [x62; x0a]].
Proof.
  split; [reflexivity|].
  destruct (unreadable_path_is_skipped
              Example.CLOCKS_PER_SEC (Example.stepping_clock 1000)
              (Example.stepping_clock 1000000) false Example.files
              ["a.swift"%string] "locked.swift"%string ["src"%string] []
              eq_refl) as (_ & _ & Hsame & _).
  cbn [app] in Hsame. rewrite Hsame. reflexivity.
Defined.

Lemma file_without_swift_suffix_is_excluded_witness :
  is_directory (Example.files "README.md") = false
  /\ (forall stem, "README.md"%string <> (stem ++ ".swift")%string)
  /\ loadSources Example.files ["a.swift"; "README.md"; "src"]%string []
     = [Example.a_swift; mkMemoryBuffer "src/b.swift" [x62; x0a]].
Proof.
  assert (Hsuffix : forall stem,
            "README.md"%string <> (stem ++ ".swift")%string).
  { intros stem Hstem.
    assert (Hends : endswith "README.md" ".swift" = true)
      by (apply endswith_spec; exists stem; exact Hstem).
    discriminate Hends. }
  split; [reflexivity|]. split; [exact Hsuffix|].
  destruct (file_without_swift_suffix_is_excluded
              Example.files ["a.swift"%string] "README.md"%string
              ["src"%string] [] eq_refl) as (_ & Hskip & _).
  destruct (Hskip Hsuffix) as [_ Hsame].
  cbn [app] in Hsame. rewrite Hsame. reflexivity.
Defined.

(** C1, on a run of two iterations.  The corpus is one file of 4 bytes and
    2 lines and each parse takes one second of CPU time, so the run parses
    8 bytes and 4 lines in 2 seconds: 4 byte/s and 2 line/s, which is also
    what [totalBytes * iterations / cpuSeconds] gives.  The report shows
    2 byte/s and 1 line/s: the figures divide the totals of one pass over
    the corpus by the CPU time of all passes. *)
Theorem throughput_is_not_scaled_by_iterations :
  let options := mkOptions [LibParse] 2 false ["a.swift"%string] in
  let r :=
    swift_parse_test_main Example.CLOCKS_PER_SEC
      (Example.stepping_clock 1000000) (Example.stepping_clock 1000000000)
      true Example.files options initial_world in
  outs (fst r) =
    [FileCount 1; TotalBytes 4; TotalLines 2; IterationsLine 2;
     Separator; ParserLine "libParse";
     WallClockMs 2000; CpuTimeMs 2000;
     ThroughputBytes 2; ThroughputLines 1]
  /\ snd r = 0
  /\ List.length (parse_log (fst r)) = 2%nat
  /\ throughput_as_specified 4 2 2000000000 = 4
  /\ throughput_as_specified 2 2 2000000000 = 2.
Proof. vm_compute. repeat split. Qed.

(** C7 as stated fails: a run whose accumulated wall time is 1999999 ns and
    whose accumulated CPU time is 1999000 ns reports 1 ms for both, where
    rounding to the nearest millisecond gives 2 ms. *)
Lemma report_times_are_not_rounded_to_nearest :
  let run_loops :=
    perform_loops Example.CLOCKS_PER_SEC (Example.stepping_clock 1999)
                  (Example.stepping_clock 1999999) LibParseExecutor
                  [Example.a_swift] no_options 1 initial_world in
  let fr := snd (fst run_loops) in
  let report :=
    outs (fst (perform Example.CLOCKS_PER_SEC (Example.stepping_clock 1999)
                       (Example.stepping_clock 1999999) LibParseExecutor
                       [Example.a_swift] no_options 1 4 2 initial_world)) in
  snd run_loops = false
  /\ tDuration fr = 1999999
  /\ cDuration fr = 1999000
  /\ rounded_to_milliseconds (tDuration fr) = 2
  /\ rounded_to_milliseconds (cDuration fr) = 2
  /\ report = [Separator; ParserLine "libParse"; WallClockMs 1; CpuTimeMs 1;
               ThroughputBytes 2001; ThroughputLines 1000]
  /\ ~ In (WallClockMs (rounded_to_milliseconds (tDuration fr))) report
  /\ ~ In (CpuTimeMs (rounded_to_milliseconds (cDuration fr))) report.
Proof.
  vm_compute. repeat split; try reflexivity;
    intros H; repeat (destruct H as [H | H]; [discriminate H|]); exact H.
Qed.

(** * Further properties of the code *)

(** ** The corpus loader, continued *)

(** Induction on a file tree, with the hypothesis for every entry of a
    directory. *)
Lemma FsNode_tree_ind (P : FsNode -> Prop) :
  P Absent ->
  (forall contents, P (RegularFile contents)) ->
  (forall es, Forall (fun e => P (snd e)) es -> P (Directory es)) ->
  forall node, P node.
Proof.
  intros HAbsent HFile HDir. fix IH 1. intros [|contents|es].
  - exact HAbsent.
  - apply HFile.
  - apply HDir. induction es as [|[p n] es IHes]; constructor.
    + apply IH.
    + exact IHes.
Qed.

Lemma load_entries_appends es :
  Forall (fun e => forall path buffers,
            _loadSwiftFilesRecursively path (snd e) buffers =
            buffers ++ loaded path (snd e)) es ->
  forall buffers,
    load_entries es buffers =
    buffers ++ flat_map (fun e => loaded (fst e) (snd e)) es.
Proof.
  induction 1 as [|[p n] es Hhead _ IH]; intros buffers.
  - cbn [load_entries flat_map]. rewrite app_nil_r. reflexivity.
  - cbn [load_entries flat_map fst snd] in *.
    rewrite IH, (Hhead p buffers), <- app_assoc. reflexivity.
Qed.

(** The loader only appends: what it adds does not depend on the buffers it
    was handed. *)
Lemma load_appends node :
  forall path buffers,
    _loadSwiftFilesRecursively path node buffers =
    buffers ++ loaded path node.
Proof.
  induction node as [|contents|es IH] using FsNode_tree_ind;
    intros path buffers.
  - unfold loaded. rewrite !load_non_directory by reflexivity.
    destruct (endswith path ".swift"); cbn [getFile];
      rewrite app_nil_r; reflexivity.
  - unfold loaded. rewrite !load_non_directory by reflexivity.
    destruct (endswith path ".swift"); [|rewrite app_nil_r; reflexivity].
    destruct (getFile path (RegularFile contents));
      [reflexivity | rewrite app_nil_r; reflexivity].
  - unfold loaded. rewrite !load_directory.
    rewrite (load_entries_appends es IH buffers).
    rewrite (load_entries_appends es IH []). reflexivity.
Qed.

Lemma loaded_directory path es :
  loaded path (Directory es) = flat_map (fun e => loaded (fst e) (snd e)) es.
Proof.
  unfold loaded at 1. rewrite load_directory.
  rewrite load_entries_appends; [reflexivity|].
  apply Forall_forall. intros e _ p bs. apply load_appends.
Qed.

Lemma loadSources_appends fs paths buffers :
  loadSources fs paths buffers =
  buffers ++ flat_map (fun path => loaded path (fs path)) paths.
Proof.
  revert buffers. induction paths as [|path paths IH]; intros buffers.
  - cbn [loadSources flat_map]. rewrite app_nil_r. reflexivity.
  - cbn [loadSources flat_map]. rewrite IH, load_appends, <- app_assoc.
    reflexivity.
Qed.

(** X1. The corpus is the concatenation, in the order of the command line,
    of what each listed path contributes; a directory contributes the
    concatenation, in iteration order, of what its entries contribute
    (depth first); buffers already present stay in front, untouched; and
    nothing is de-duplicated: listing the paths twice loads everything
    twice. *)
Theorem corpus_is_concatenation_in_listing_order
    (fs : string -> FsNode) (paths : list string)
    (buffers : list MemoryBuffer) :
  loadSources fs paths buffers =
    buffers ++ flat_map (fun path => loaded path (fs path)) paths
  /\ (forall path es,
        loaded path (Directory es) =
        flat_map (fun e => loaded (fst e) (snd e)) es)
  /\ (forall path node bs,
        _loadSwiftFilesRecursively path node bs = bs ++ loaded path node)
  /\ loadSources fs (paths ++ paths) [] =
     loadSources fs paths [] ++ loadSources fs paths [].
Proof.
  split; [apply loadSources_appends|].
  split; [apply loaded_directory|].
  split; [intros path node bs; apply load_appends|].
  rewrite !loadSources_appends, flat_map_app. reflexivity.
Qed.

Lemma loaded_identifiers node :
  forall path,
    Forall (fun b => endswith (getBufferIdentifier b) ".swift" = true)
           (loaded path node).
Proof.
  induction node as [|contents|es IH] using FsNode_tree_ind; intros path.
  - unfold loaded. rewrite load_non_directory by reflexivity.
    destruct (endswith path ".swift"); constructor.
  - unfold loaded. rewrite load_non_directory by reflexivity.
    destruct (endswith path ".swift") eqn:Hends; [|constructor].
    destruct contents as [bytes|]; cbn [getFile app]; constructor.
    + exact Hends.
    + constructor.
  - rewrite loaded_directory.
    induction IH as [|[p n] es Hhead _ IHes]; cbn [flat_map fst snd].
    + constructor.
    + apply Forall_app. split; [apply Hhead | exact IHes].
Qed.

(** X2. Every buffer of the corpus, at whatever depth it was found, is
    named by a path that ends with ".swift"; in a directory, files of any
    other name are left out. *)
Theorem every_corpus_buffer_is_a_swift_file
    (fs : string -> FsNode) (paths : list string) :
  Forall (fun b => endswith (getBufferIdentifier b) ".swift" = true
                   /\ exists stem,
                        getBufferIdentifier b = (stem ++ ".swift")%string)
         (loadSources fs paths []).
Proof.
  rewrite loadSources_appends. cbn [app].
  induction paths as [|path paths IH]; cbn [flat_map]; [constructor|].
  apply Forall_app. split; [|exact IH].
  eapply Forall_impl; [|apply loaded_identifiers].
  intros b Hb. split; [exact Hb | apply endswith_spec; exact Hb].
Qed.

(** ** The corpus statistics, continued *)

Lemma count_le_length c s : (count c s <= List.length s)%nat.
Proof.
  induction s as [|b s IH]; cbn [count List.length]; [lia|].
  destruct (Byte.eqb b c); lia.
Qed.

Lemma true_lines_le_true_bytes buffers :
  true_lines buffers <= true_bytes buffers.
Proof.
  induction buffers as [|buffer rest IH]; cbn [true_lines true_bytes]; [lia|].
  unfold getBufferSize.
  pose proof (count_le_length newline (getBuffer buffer)). lia.
Qed.

(** X3. For a corpus of fewer than [2^32] bytes the two counters hold the
    true totals (nothing wraps), and the line total is at most the byte
    total, since a newline is a byte. *)
Theorem corpus_totals_exact_below_2_32 (buffers : list MemoryBuffer)
    (Hsmall : true_bytes buffers < 2 ^ 32) :
  count_corpus buffers 0 0 = (true_bytes buffers, true_lines buffers)
  /\ 0 <= snd (count_corpus buffers 0 0) <= fst (count_corpus buffers 0 0)
  /\ fst (count_corpus buffers 0 0) < 2 ^ 32.
Proof.
  pose proof (true_lines_le_true_bytes buffers) as Hle.
  pose proof (true_lines_nonneg buffers) as Hnn.
  assert (Hcount : count_corpus buffers 0 0
                   = (true_bytes buffers, true_lines buffers)).
  { change (count_corpus buffers 0 0)
      with (count_corpus buffers (0 mod UINT_MAX_plus_1)
                         (0 mod UINT_MAX_plus_1)).
    rewrite count_corpus_from. unfold UINT_MAX_plus_1. cbn [Z.add].
    rewrite !Z.mod_small by lia. reflexivity. }
  rewrite Hcount. cbn [fst snd]. split; [reflexivity | lia].
Qed.

Lemma corpus_totals_exact_below_2_32_witness :
  true_bytes [Example.a_swift; Example.b_swift] < 2 ^ 32
  /\ count_corpus [Example.a_swift; Example.b_swift] 0 0 = (6, 3).
Proof.
  assert (Hsmall : true_bytes [Example.a_swift; Example.b_swift] < 2 ^ 32)
    by reflexivity.
  split; [exact Hsmall|].
  destruct (corpus_totals_exact_below_2_32
              [Example.a_swift; Example.b_swift] Hsmall) as [Hcount _].
  exact Hcount.
Defined.

(** ** The timing probe and the measurement loop, continued *)

Section MoreRunFacts.

Variable CLOCKS_PER_SEC : Z.
Variable std_clock : nat -> Z.
Variable steady_clock_now : nat -> Z.

Local Abbreviation cpu := (cpu_sample CLOCKS_PER_SEC std_clock).
Local Abbreviation wall := (wall_sample steady_clock_now).
Local Abbreviation accumulated :=
  (accumulated CLOCKS_PER_SEC std_clock steady_clock_now).
Local Abbreviation perform_loops :=
  (perform_loops CLOCKS_PER_SEC std_clock steady_clock_now).
Local Abbreviation perform :=
  (perform CLOCKS_PER_SEC std_clock steady_clock_now).

(** The two ways the loops of [perform] end: after every parse of every
    pass, or at the first buffer of the corpus that fails. *)
Lemma perform_loops_cases X buffers opts iteration w :
  ((iteration = O \/ forall b, In b buffers -> performParse X b opts = None)
   /\ perform_loops X buffers opts iteration w =
      ((after_calls X opts (passes iteration buffers) (started X w),
        accumulated w initial_frame (iteration * List.length buffers) None),
       false))
  \/ (exists pre b post msg,
        buffers = pre ++ b :: post
        /\ (forall b', In b' pre -> performParse X b' opts = None)
        /\ performParse X b opts = Some msg
        /\ iteration <> O
        /\ perform_loops X buffers opts iteration w =
           ((after_calls X opts (pre ++ [b]) (started X w),
             accumulated w initial_frame (List.length pre) (Some msg)),
            true)).
Proof.
  destruct iteration as [|n].
  - left. split; [left; reflexivity|].
    rewrite perform_loops_unfold. cbn [each_iteration Nat.mul].
    unfold passes. cbn [repeat List.concat]. rewrite after_calls_nil.
    rewrite (accumulated_O CLOCKS_PER_SEC std_clock steady_clock_now)
      by reflexivity.
    reflexivity.
  - destruct (first_failure X opts buffers)
      as [Hall | (pre & b & post & msg & -> & Hpre & Hb)].
    + left. split; [right; exact Hall|].
      apply perform_loops_ok. exact Hall.
    + right. exists pre, b, post, msg.
      split; [reflexivity|]. split; [exact Hpre|]. split; [exact Hb|].
      split; [discriminate|].
      apply perform_loops_fail; assumption.
Qed.

Lemma in_passes n buffers b : In b (passes n buffers) -> In b buffers.
Proof.
  induction n as [|n IH]; [intros []|].
  rewrite passes_S, in_app_iff. intros [H | H]; [exact H | apply IH, H].
Qed.

(** X4. A run succeeds exactly when there is nothing to iterate or every
    buffer of the corpus parses.  When it fails, the failure returned is the
    one of the first buffer, in corpus order, that fails to parse, passed on
    unchanged, and that parse is the last one made. *)
Theorem run_fails_with_first_failure_of_the_corpus
    X buffers opts iteration totalBytes totalLines w :
  let r := perform X buffers opts iteration totalBytes totalLines w in
  (snd r = None <->
   iteration = O \/ forall b, In b buffers -> performParse X b opts = None)
  /\ (forall msg,
        snd r = Some msg ->
        exists pre b post,
          buffers = pre ++ b :: post
          /\ (forall b', In b' pre -> performParse X b' opts = None)
          /\ performParse X b opts = Some msg
          /\ parse_log (fst r) =
             parse_log w ++ map (call_of X opts) (pre ++ [b])).
Proof.
  intros r. subst r.
  destruct (perform_loops_cases X buffers opts iteration w)
    as [[Hok Hloops] | (pre & b & post & msg & Hsplit & Hpre & Hb & Hit & Hloops)].
  - rewrite (perform_completed _ _ _ X buffers opts iteration totalBytes
               totalLines w _ _ Hloops).
    cbn [snd]. split; [split; [intros _; exact Hok | reflexivity]|].
    intros msg Hmsg. discriminate Hmsg.
  - rewrite (perform_returned _ _ _ X buffers opts iteration totalBytes
               totalLines w _ _ Hloops).
    cbn [snd fst err after_calls parse_log started print_outs].
    split.
    + split; [discriminate|].
      intros [H0 | Hall]; [contradiction|].
      rewrite Hall in Hb; [discriminate Hb|].
      rewrite Hsplit. apply in_elt.
    + intros msg' Hmsg. injection Hmsg as <-.
      exists pre, b, post. repeat split; assumption.
Qed.


End MoreRunFacts.

Lemma sum_samples_zero sample start calls :
  (forall k, sample k = 0) -> sum_samples sample start calls = 0.
Proof.
  intros Hzero. revert start.
  induction calls as [|n IH]; intros start; cbn [sum_samples]; [reflexivity|].
  rewrite Hzero, IH. reflexivity.
Qed.


Lemma sum_samples_divide d sample start calls :
  (forall k, (d | sample k)) -> (d | sum_samples sample start calls).
Proof.
  intros Hdiv. revert start.
  induction calls as [|n IH]; intros start; cbn [sum_samples].
  - apply Z.divide_0_r.
  - apply Z.divide_add_r; [apply Hdiv | apply IH].
Qed.

Lemma clockMultiply_nonneg CLOCKS_PER_SEC : 0 <= clockMultiply CLOCKS_PER_SEC.
Proof.
  unfold clockMultiply, Chrono.period_den, Chrono.period_num.
  destruct (Z.ltb_spec 0 CLOCKS_PER_SEC) as [Hpos | _]; [|lia].
  rewrite Z.quot_1_r. apply Z.quot_pos; lia.
Qed.

Lemma clockMultiply_degenerate CLOCKS_PER_SEC :
  CLOCKS_PER_SEC <= 0 \/ 1000000000 < CLOCKS_PER_SEC ->
  clockMultiply CLOCKS_PER_SEC = 0.
Proof.
  unfold clockMultiply, Chrono.period_den, Chrono.period_num.
  intros [Hle | Hgt]; destruct (Z.ltb_spec 0 CLOCKS_PER_SEC) as [Hpos | Hnp];
    try reflexivity; try lia.
  rewrite Z.quot_1_r. apply Z.quot_small. lia.
Qed.

Section TimingFacts.

Variable CLOCKS_PER_SEC : Z.
Variable std_clock : nat -> Z.
Variable steady_clock_now : nat -> Z.

Local Abbreviation cpu := (cpu_sample CLOCKS_PER_SEC std_clock).
Local Abbreviation wall := (wall_sample steady_clock_now).
Local Abbreviation accumulated :=
  (accumulated CLOCKS_PER_SEC std_clock steady_clock_now).
Local Abbreviation perform_loops :=
  (perform_loops CLOCKS_PER_SEC std_clock steady_clock_now).
Local Abbreviation perform :=
  (perform CLOCKS_PER_SEC std_clock steady_clock_now).

(** At the end of the loops the accumulators hold sums of samples of the
    successful parses, however the loops ended. *)
Lemma loops_frame X buffers opts iteration w :
  exists calls e,
    snd (fst (perform_loops X buffers opts iteration w)) =
    accumulated w initial_frame calls e.
Proof.
  destruct (perform_loops_cases CLOCKS_PER_SEC std_clock steady_clock_now
              X buffers opts iteration w)
    as [[_ ->] | (pre & b & post & msg & _ & _ & _ & _ & ->)];
    eexists; eexists; reflexivity.
Qed.

Lemma loops_completed X buffers opts iteration totalBytes totalLines w :
  snd (perform X buffers opts iteration totalBytes totalLines w) = None ->
  perform_loops X buffers opts iteration w =
  (fst (perform_loops X buffers opts iteration w), false).
Proof.
  destruct (perform_loops_cases CLOCKS_PER_SEC std_clock steady_clock_now
              X buffers opts iteration w)
    as [[_ Hloops] | (pre & b & post & msg & _ & _ & _ & _ & Hloops)].
  - rewrite Hloops. reflexivity.
  - rewrite (perform_returned _ _ _ X buffers opts iteration totalBytes
               totalLines w _ _ Hloops).
    intros H. discriminate H.
Qed.

(** X6. Where [CLOCKS_PER_SEC] is not positive, or exceeds [10^9] (so that
    the integer factor [10^9 / CLOCKS_PER_SEC] is 0), every measured CPU
    duration is 0: a successful run reports 0 ms of CPU time and never a
    throughput line. *)
Theorem no_cpu_time_without_usable_clock_rate
    X buffers opts iteration totalBytes totalLines w
    (Hrate : CLOCKS_PER_SEC <= 0 \/ 1000000000 < CLOCKS_PER_SEC) :
  let fr := snd (fst (perform_loops X buffers opts iteration w)) in
  let r := perform X buffers opts iteration totalBytes totalLines w in
  cDuration fr = 0
  /\ (snd r = None ->
      outs (fst r) =
      outs w ++ header_of X
      ++ [WallClockMs (Z.quot (tDuration fr) 1000000); CpuTimeMs 0]).
Proof.
  intros fr r.
  assert (Hzero : cDuration fr = 0).
  { subst fr. destruct (loops_frame X buffers opts iteration w)
      as (calls & e & ->).
    unfold accumulated. cbn [cDuration initial_frame]. unfold Chrono.zero.
    rewrite sum_samples_zero; [reflexivity|].
    intros k. unfold cpu_sample.
    rewrite clockMultiply_degenerate by exact Hrate. lia. }
  split; [exact Hzero|].
  intros Hok. subst r.
  pose proof (loops_completed X buffers opts iteration totalBytes totalLines
                w Hok) as Hloops.
  destruct (fst (perform_loops X buffers opts iteration w)) as [w' fr'] eqn:E.
  rewrite (completed_run_outs _ _ _ X buffers opts iteration totalBytes
             totalLines w w' fr' Hloops).
  subst fr. cbn [snd] in *.
  rewrite report_without_cpu_time by lia. rewrite Hzero. reflexivity.
Qed.



(** X8. The accumulated CPU time is a whole multiple of the factor
    [10^9 / CLOCKS_PER_SEC] that turns ticks of [std::clock()] into
    nanoseconds, however the run ends; the factor is the integer quotient:
    [factor * CLOCKS_PER_SEC <= 10^9 < (factor + 1) * CLOCKS_PER_SEC]. *)
Theorem cpu_time_is_counted_in_whole_clock_ticks
    X buffers opts iteration w (Hrate : 0 < CLOCKS_PER_SEC) :
  let fr := snd (fst (perform_loops X buffers opts iteration w)) in
  let tick := clockMultiply CLOCKS_PER_SEC in
  (tick | cDuration fr)
  /\ 0 <= tick
  /\ tick * CLOCKS_PER_SEC <= 1000000000 < (tick + 1) * CLOCKS_PER_SEC.
Proof.
  intros fr tick. split; [|split].
  - subst fr. destruct (loops_frame X buffers opts iteration w)
      as (calls & e & ->).
    unfold accumulated. cbn [cDuration initial_frame]. unfold Chrono.zero.
    cbn [Z.add]. apply (sum_samples_divide tick cpu). intros k.
    unfold cpu_sample. apply Z.divide_factor_r.
  - apply clockMultiply_nonneg.
  - subst tick. unfold clockMultiply, Chrono.period_den, Chrono.period_num.
    destruct (Z.ltb_spec 0 CLOCKS_PER_SEC) as [_ | Hnp]; [|lia].
    rewrite Z.quot_1_r, Z.quot_div_nonneg by lia.
    pose proof (Z.div_mod 1000000000 CLOCKS_PER_SEC ltac:(lia)) as Hdm.
    pose proof (Z.mod_pos_bound 1000000000 CLOCKS_PER_SEC Hrate) as Hmod.
    lia.
Qed.

(** X9. The throughput lines are decided on the nanosecond count, not on
    the milliseconds shown: a completed run whose accumulated CPU time is
    positive but below one millisecond shows a CPU time of 0 ms and still
    prints both throughput lines. *)
Theorem throughput_is_printed_below_one_millisecond
    X buffers opts iteration totalBytes totalLines w w' fr
    (Hrun : perform_loops X buffers opts iteration w = ((w', fr), false))
    (Hsub : 0 < cDuration fr < 1000000) :
  outs (fst (perform X buffers opts iteration totalBytes totalLines w)) =
  outs w ++ header_of X
  ++ [WallClockMs (Z.quot (tDuration fr) 1000000);
      CpuTimeMs 0;
      ThroughputBytes
        ((totalBytes * 1000000000) mod UINTMAX_MAX_plus_1 / cDuration fr);
      ThroughputLines
        ((totalLines * 1000000000) mod UINTMAX_MAX_plus_1 / cDuration fr)].
Proof.
  rewrite (completed_run_outs _ _ _ X buffers opts iteration totalBytes
             totalLines w w' fr Hrun).
  rewrite report_with_positive_cpu_time by lia.
  rewrite (Z.quot_small (cDuration fr) 1000000) by lia. reflexivity.
Qed.

End TimingFacts.

(** ** The benchmark controller, continued *)

Section MoreControllerFacts.

Variable CLOCKS_PER_SEC : Z.
Variable std_clock : nat -> Z.
Variable steady_clock_now : nat -> Z.
Variable SWIFT_BUILD_SWIFT_SYNTAX : bool.

Local Abbreviation perform :=
  (perform CLOCKS_PER_SEC std_clock steady_clock_now).
Local Abbreviation each_executor :=
  (each_executor CLOCKS_PER_SEC std_clock steady_clock_now
                 SWIFT_BUILD_SWIFT_SYNTAX).
Local Abbreviation hits_unsupported_parser :=
  (hits_unsupported_parser SWIFT_BUILD_SWIFT_SYNTAX).
Local Abbreviation executor_of := (executor_of SWIFT_BUILD_SWIFT_SYNTAX).

(** The outcome and the log of a run, from the two ways its loops end. *)
Lemma perform_outcome X buffers opts iteration totalBytes totalLines w :
  let r := perform X buffers opts iteration totalBytes totalLines w in
  ((iteration = O \/ forall b, In b buffers -> performParse X b opts = None)
   /\ snd r = None
   /\ parse_log (fst r) =
      parse_log w ++ map (call_of X opts) (passes iteration buffers))
  \/ (exists pre b post msg,
        buffers = pre ++ b :: post
        /\ performParse X b opts = Some msg
        /\ iteration <> O
        /\ snd r = Some msg
        /\ parse_log (fst r) =
           parse_log w ++ map (call_of X opts) (pre ++ [b])).
Proof.
  intros r. subst r.
  destruct (perform_loops_cases CLOCKS_PER_SEC std_clock steady_clock_now
              X buffers opts iteration w)
    as [[Hok Hloops] | (pre & b & post & msg & Hsplit & _ & Hb & Hit & Hloops)].
  - left.
    rewrite (perform_completed _ _ _ X buffers opts iteration totalBytes
               totalLines w _ _ Hloops).
    split; [exact Hok|]. split; reflexivity.
  - right. exists pre, b, post, msg.
    rewrite (perform_returned _ _ _ X buffers opts iteration totalBytes
               totalLines w _ _ Hloops).
    repeat split; assumption.
Qed.

(** Which run fails, and with what: only the one of a SwiftParser that the
    build lacks, and only when it gets to parse something. *)
Lemma run_result mode buffers opts iteration totalBytes totalLines w :
  snd (perform (executor_of mode) buffers opts iteration totalBytes
               totalLines w) =
  if hits_unsupported_parser [mode] buffers iteration
  then Some unsupported_message
  else None.
Proof.
  unfold hits_unsupported_parser. cbn [existsb]. rewrite orb_false_r.
  destruct (perform_outcome (executor_of mode) buffers opts iteration
              totalBytes totalLines w)
    as [(Hok & -> & _) | (pre & b & post & msg & -> & Hb & Hit & -> & _)].
  - destruct mode; cbn [is_SwiftParser andb]; [|reflexivity].
    destruct SWIFT_BUILD_SWIFT_SYNTAX; cbn [negb andb]; [reflexivity|].
    destruct Hok as [-> | Hall].
    + rewrite andb_false_r. reflexivity.
    + destruct buffers as [|b0 rest]; [reflexivity|].
      specialize (Hall b0 (or_introl eq_refl)). discriminate Hall.
  - destruct mode; cbn [is_SwiftParser andb]; [|discriminate Hb].
    destruct SWIFT_BUILD_SWIFT_SYNTAX; [discriminate Hb|].
    cbn in Hb. injection Hb as <-.
    rewrite length_app. cbn [List.length negb andb].
    replace (List.length pre + S (List.length post))%nat
      with (S (List.length pre + List.length post)) by lia.
    cbn [Nat.eqb negb andb].
    destruct iteration; [contradiction|]. reflexivity.
Qed.

Lemma hits_cons mode rest buffers iteration :
  hits_unsupported_parser (mode :: rest) buffers iteration =
  hits_unsupported_parser [mode] buffers iteration
  || hits_unsupported_parser rest buffers iteration.
Proof.
  unfold hits_unsupported_parser. cbn [existsb].
  destruct (is_SwiftParser mode), (existsb is_SwiftParser rest),
    SWIFT_BUILD_SWIFT_SYNTAX, (Nat.eqb (List.length buffers) 0),
    (Nat.eqb iteration 0); reflexivity.
Qed.

Lemma each_executor_result modes buffers opts iteration byteCount lineCount w :
  snd (each_executor modes buffers opts iteration byteCount lineCount w) =
  if hits_unsupported_parser modes buffers iteration
  then Some unsupported_message
  else None.
Proof.
  revert w. induction modes as [|mode rest IH]; intros w.
  - reflexivity.
  - cbn [each_executor]. rewrite hits_cons.
    pose proof (run_result mode buffers opts iteration byteCount lineCount w)
      as Hrun.
    destruct (perform _ _ _ _ _ _ _) as [w1 e]. cbn [snd] in Hrun. subst e.
    destruct (hits_unsupported_parser [mode] buffers iteration);
      cbn [Error_bool orb]; [reflexivity | apply IH].
Qed.

Lemma each_executor_errs modes buffers opts iteration byteCount lineCount w :
  errs (fst (each_executor modes buffers opts iteration byteCount lineCount w))
  = errs w.
Proof.
  revert w. induction modes as [|mode rest IH]; intros w.
  - reflexivity.
  - cbn [each_executor].
    pose proof (perform_errs CLOCKS_PER_SEC std_clock steady_clock_now
                  (executor_of mode) buffers opts iteration byteCount
                  lineCount w) as Herrs.
    destruct (perform _ _ _ _ _ _ _) as [w1 e]. cbn [fst] in Herrs.
    destruct (Error_bool e); cbn [fst]; [exact Herrs|].
    rewrite IH. exact Herrs.
Qed.

Lemma call_from_weaken mode rest buffers opts c :
  call_from SWIFT_BUILD_SWIFT_SYNTAX rest buffers opts c ->
  call_from SWIFT_BUILD_SWIFT_SYNTAX (mode :: rest) buffers opts c.
Proof.
  intros (Hopts & (m & Hm & Hname) & Hbuf).
  split; [exact Hopts|]. split; [|exact Hbuf].
  exists m. split; [right; exact Hm | exact Hname].
Qed.

Lemma calls_of_run mode rest buffers opts bs :
  (forall b, In b bs -> In b buffers) ->
  Forall (call_from SWIFT_BUILD_SWIFT_SYNTAX (mode :: rest) buffers opts)
         (map (call_of (executor_of mode) opts) bs).
Proof.
  intros Hin. apply Forall_forall. intros c Hc.
  apply in_map_iff in Hc. destruct Hc as (b & <- & Hb).
  split; [reflexivity|]. split.
  - exists mode. split; [left; reflexivity | reflexivity].
  - exists b. split; [apply Hin; exact Hb | reflexivity].
Qed.

(** The log of the loop over the executors: what is added are calls for
    the selected executors on buffers of the corpus with the given options,
    and as many as [modes * iterations * corpus size] when nothing fails. *)
Lemma each_executor_log modes buffers opts iteration byteCount lineCount w :
  exists calls,
    parse_log (fst (each_executor modes buffers opts iteration byteCount
                                  lineCount w)) = parse_log w ++ calls
    /\ Forall (call_from SWIFT_BUILD_SWIFT_SYNTAX modes buffers opts) calls
    /\ (hits_unsupported_parser modes buffers iteration = false ->
        List.length calls =
        (List.length modes * (iteration * List.length buffers))%nat).
Proof.
  revert w. induction modes as [|mode rest IH]; intros w.
  - exists []. cbn [each_executor fst]. rewrite app_nil_r.
    split; [reflexivity|]. split; [constructor | reflexivity].
  - cbn [each_executor]. rewrite hits_cons.
    pose proof (run_result mode buffers opts iteration byteCount lineCount w)
      as Hrun.
    pose proof (perform_outcome (executor_of mode) buffers opts iteration
                  byteCount lineCount w) as Hout.
    cbv zeta in Hout.
    destruct (perform _ _ _ _ _ _ _) as [w1 e]. cbn [fst snd] in Hrun, Hout.
    destruct Hout as [(_ & -> & Hlog) | (pre & b & post & msg & -> & _ & _ & -> & Hlog)].
    + cbn [Error_bool].
      destruct (hits_unsupported_parser [mode] buffers iteration);
        [discriminate Hrun|]. cbn [orb].
      destruct (IH w1) as (calls & Hcalls & Hfrom & Hcount).
      exists (map (call_of (executor_of mode) opts) (passes iteration buffers)
              ++ calls).
      rewrite Hcalls, Hlog, <- app_assoc. split; [reflexivity|].
      split.
      * apply Forall_app. split.
        -- apply calls_of_run. intros b0. apply in_passes.
        -- eapply Forall_impl; [|exact Hfrom].
           intros c. apply call_from_weaken.
      * intros Hrest. rewrite length_app, length_map, length_passes.
        rewrite (Hcount Hrest). cbn [List.length]. lia.
    + cbn [Error_bool fst].
      exists (map (call_of (executor_of mode) opts) (pre ++ [b])).
      split; [exact Hlog|]. split.
      * apply calls_of_run. intros b0 Hb0. apply in_app_iff in Hb0.
        apply in_app_iff. destruct Hb0 as [Hb0 | [<- | []]];
          [left; exact Hb0 | right; left; reflexivity].
      * destruct (hits_unsupported_parser [mode] (pre ++ b :: post) iteration);
          [discriminate | discriminate Hrun].
Qed.

End MoreControllerFacts.

(** ** The driver *)

Section DriverFacts.

Variable CLOCKS_PER_SEC : Z.
Variable std_clock : nat -> Z.
Variable steady_clock_now : nat -> Z.
Variable SWIFT_BUILD_SWIFT_SYNTAX : bool.
Variable fs : string -> FsNode.

Local Abbreviation main :=
  (swift_parse_test_main CLOCKS_PER_SEC std_clock steady_clock_now
                         SWIFT_BUILD_SWIFT_SYNTAX fs).
Local Abbreviation each_executor :=
  (each_executor CLOCKS_PER_SEC std_clock steady_clock_now
                 SWIFT_BUILD_SWIFT_SYNTAX).
Local Abbreviation hits_unsupported_parser :=
  (hits_unsupported_parser SWIFT_BUILD_SWIFT_SYNTAX).

(** [swift_parse_test_main] as the loop over the executors started after
    the preamble, followed by the conversion of its result. *)
Lemma main_unfold options w :
  main options w =
  let buffers := loadSources fs (InputPaths options) [] in
  let stats := count_corpus buffers 0 0 in
  let r :=
    each_executor (Executors options) buffers (exec_options_of options)
      (Iterations options) (fst stats) (snd stats)
      (print_outs
         (preamble buffers (fst stats) (snd stats) (Iterations options)) w) in
  match snd r with
  | Some message => (print_errs ("error: " ++ message) (fst r), 1)
  | None => (fst r, 0)
  end.
Proof.
  unfold swift_parse_test_main. cbv zeta.
  fold (exec_options_of options).
  destruct (count_corpus _ 0 0) as [bc lc]. cbn [fst snd]. unfold preamble.
  destruct (each_executor _ _ _ _ _ _ _) as [w1 [message|]]; reflexivity.
Qed.

(** X10. The exit status is 1 exactly when the SwiftParser is among the
    selected executors, the build lacks it, the corpus is not empty and the
    iteration count is not zero; it is 0 in every other case (so a run of
    libParse alone, or on an empty corpus, cannot fail).  In the failing
    case the error stream receives the one line
    "error: SwiftParser is not supported", and otherwise nothing. *)
Theorem exit_status_is_1_exactly_for_an_unsupported_parser_at_work
    (options : SwiftParseTestOptions) (w : World) :
  let buffers := loadSources fs (InputPaths options) [] in
  let failing :=
    hits_unsupported_parser (Executors options) buffers (Iterations options) in
  snd (main options w) = (if failing then 1 else 0)
  /\ errs (fst (main options w)) =
     errs w ++ (if failing
                then ["error: SwiftParser is not supported"%string]
                else [])
  /\ (failing = true <->
      In SwiftParser (Executors options)
      /\ SWIFT_BUILD_SWIFT_SYNTAX = false
      /\ buffers <> []
      /\ Iterations options <> O).
Proof.
  intros buffers failing.
  rewrite main_unfold. cbv zeta. fold buffers.
  pose proof (each_executor_result CLOCKS_PER_SEC std_clock steady_clock_now
                SWIFT_BUILD_SWIFT_SYNTAX (Executors options) buffers
                (exec_options_of options) (Iterations options)
                (fst (count_corpus buffers 0 0))
                (snd (count_corpus buffers 0 0))
                (print_outs
                   (preamble buffers (fst (count_corpus buffers 0 0))
                             (snd (count_corpus buffers 0 0))
                             (Iterations options)) w)) as Hres.
  pose proof (each_executor_errs CLOCKS_PER_SEC std_clock steady_clock_now
                SWIFT_BUILD_SWIFT_SYNTAX (Executors options) buffers
                (exec_options_of options) (Iterations options)
                (fst (count_corpus buffers 0 0))
                (snd (count_corpus buffers 0 0))
                (print_outs
                   (preamble buffers (fst (count_corpus buffers 0 0))
                             (snd (count_corpus buffers 0 0))
                             (Iterations options)) w)) as Herrs.
  fold failing in Hres.
  destruct (each_executor _ _ _ _ _ _ _) as [w1 e].
  cbn [fst snd] in Hres, Herrs |- *. subst e.
  split; [destruct failing; reflexivity|].
  split.
  { destruct failing; cbn [fst print_errs errs]; rewrite Herrs;
      [reflexivity | rewrite app_nil_r; reflexivity]. }
  subst failing. unfold hits_unsupported_parser.
  rewrite !andb_true_iff, !negb_true_iff, Nat.eqb_neq, Nat.eqb_neq.
  rewrite existsb_exists.
  split.
  - intros [[[(mode & Hin & Hmode) Hbuild] Hlen] Hit].
    destruct mode; [|discriminate Hmode].
    repeat split; try assumption.
    intros Hnil. rewrite Hnil in Hlen. apply Hlen. reflexivity.
  - intros (Hin & Hbuild & Hne & Hit).
    repeat split; try assumption.
    + exists SwiftParser. split; [exact Hin | reflexivity].
    + destruct buffers; [contradiction|discriminate].
Qed.

(** X11. When no selected executor fails, the tool makes exactly
    [executors * iterations * corpus size] parse calls. *)
Theorem tool_makes_executors_times_iterations_times_corpus_parses
    (options : SwiftParseTestOptions) (w : World)
    (Hok : hits_unsupported_parser (Executors options)
             (loadSources fs (InputPaths options) [])
             (Iterations options) = false) :
  List.length (parse_log (fst (main options w))) =
  (List.length (parse_log w)
   + List.length (Executors options)
     * (Iterations options
        * List.length (loadSources fs (InputPaths options) [])))%nat
  /\ snd (main options w) = 0.
Proof.
  rewrite main_unfold. cbv zeta.
  set (buffers := loadSources fs (InputPaths options) []) in *.
  set (w0 := print_outs _ w).
  pose proof (each_executor_result CLOCKS_PER_SEC std_clock steady_clock_now
                SWIFT_BUILD_SWIFT_SYNTAX (Executors options) buffers
                (exec_options_of options) (Iterations options)
                (fst (count_corpus buffers 0 0))
                (snd (count_corpus buffers 0 0)) w0) as Hres.
  destruct (each_executor_log CLOCKS_PER_SEC std_clock steady_clock_now
              SWIFT_BUILD_SWIFT_SYNTAX (Executors options) buffers
              (exec_options_of options) (Iterations options)
              (fst (count_corpus buffers 0 0))
              (snd (count_corpus buffers 0 0)) w0)
    as (calls & Hlog & _ & Hcount).
  rewrite Hok in Hres.
  destruct (each_executor _ _ _ _ _ _ _) as [w1 e].
  cbn [fst snd] in Hres, Hlog |- *. subst e. cbn [fst snd].
  rewrite Hlog, length_app, (Hcount Hok). split; reflexivity.
Qed.

(** X12. Every parse call the tool makes is made for a selected executor,
    on a buffer of the loaded corpus, with the option set built from the
    command line: that set contains [SkipBodies] exactly when the
    [skip-bodies] flag was given, and holds nothing else. *)
Theorem parse_calls_carry_the_command_line_options
    (options : SwiftParseTestOptions) (w : World) :
  contains (exec_options_of options) ExecuteOptionFlag.SkipBodies
    = SkipBodies options
  /\ exec_options_of options =
     (if SkipBodies options then ExecuteOptionFlag.SkipBodies else no_options)
  /\ exists calls,
       parse_log (fst (main options w)) = parse_log w ++ calls
       /\ Forall (call_from SWIFT_BUILD_SWIFT_SYNTAX (Executors options)
                            (loadSources fs (InputPaths options) [])
                            (exec_options_of options))
                 calls.
Proof.
  split; [unfold exec_options_of; destruct (SkipBodies options); reflexivity|].
  split; [unfold exec_options_of; destruct (SkipBodies options); reflexivity|].
  rewrite main_unfold. cbv zeta.
  set (buffers := loadSources fs (InputPaths options) []) in *.
  set (w0 := print_outs _ w).
  destruct (each_executor_log CLOCKS_PER_SEC std_clock steady_clock_now
              SWIFT_BUILD_SWIFT_SYNTAX (Executors options) buffers
              (exec_options_of options) (Iterations options)
              (fst (count_corpus buffers 0 0))
              (snd (count_corpus buffers 0 0)) w0)
    as (calls & Hlog & Hfrom & _).
  exists calls. split; [|exact Hfrom].
  destruct (each_executor _ _ _ _ _ _ _) as [w1 [message|]];
    cbn [fst snd print_errs parse_log] in *; exact Hlog.
Qed.

End DriverFacts.

(** ** What the options of a run can change *)

Section OptionsFacts.

Variable CLOCKS_PER_SEC : Z.
Variable std_clock : nat -> Z.
Variable steady_clock_now : nat -> Z.
Variable SWIFT_BUILD_SWIFT_SYNTAX : bool.

Local Abbreviation each_buffer :=
  (each_buffer CLOCKS_PER_SEC std_clock steady_clock_now).
Local Abbreviation each_iteration :=
  (each_iteration CLOCKS_PER_SEC std_clock steady_clock_now).
Local Abbreviation perform :=
  (perform CLOCKS_PER_SEC std_clock steady_clock_now).
Local Abbreviation each_executor :=
  (each_executor CLOCKS_PER_SEC std_clock steady_clock_now
                 SWIFT_BUILD_SWIFT_SYNTAX).

Lemma same_but_opts_print ls w1 w2 :
  same_but_opts w1 w2 -> same_but_opts (print_outs ls w1) (print_outs ls w2).
Proof.
  intros (Hc & Hn & Ho & He & Hl). unfold same_but_opts, print_outs.
  cbn [clock_reads now_reads outs errs parse_log]. rewrite Ho.
  repeat split; assumption.
Qed.

Lemma same_but_opts_call X o1 o2 b w1 w2 :
  same_but_opts w1 w2 ->
  same_but_opts (after_calls X o1 [b] w1) (after_calls X o2 [b] w2).
Proof.
  intros (Hc & Hn & Ho & He & Hl). unfold same_but_opts, after_calls.
  cbn [clock_reads now_reads outs errs parse_log].
  rewrite !map_app, Hc, Hn, Hl. repeat split; assumption.
Qed.

Section OneExecutor.

Variable X : ExecutorImpl.
Hypothesis X_ignores_opts :
  forall b o1 o2, performParse X b o1 = performParse X b o2.

Lemma each_buffer_same_but_opts o1 o2 buffers w1 w2 fr :
  same_but_opts w1 w2 ->
  let r1 := each_buffer X o1 buffers (w1, fr) in
  let r2 := each_buffer X o2 buffers (w2, fr) in
  same_but_opts (fst (fst r1)) (fst (fst r2))
  /\ snd (fst r1) = snd (fst r2)
  /\ snd r1 = snd r2.
Proof.
  revert w1 w2 fr. induction buffers as [|b rest IH]; intros w1 w2 fr Hsame.
  - cbn [each_buffer fst snd]. split; [exact Hsame|]. split; reflexivity.
  - cbn [each_buffer].
    rewrite !measure_parse_body. rewrite (X_ignores_opts b o2 o1).
    pose proof (same_but_opts_call X o1 o2 b w1 w2 Hsame) as Hcall.
    destruct Hsame as (Hc & Hn & _).
    rewrite <- Hc, <- Hn.
    cbn [fst snd set_err err tDuration cDuration].
    destruct (Error_bool (performParse X b o1)).
    + cbn [fst snd]. split; [exact Hcall|]. split; reflexivity.
    + apply IH. exact Hcall.
Qed.

Lemma each_iteration_same_but_opts o1 o2 buffers iteration w1 w2 fr :
  same_but_opts w1 w2 ->
  let r1 := each_iteration X o1 buffers iteration (w1, fr) in
  let r2 := each_iteration X o2 buffers iteration (w2, fr) in
  same_but_opts (fst (fst r1)) (fst (fst r2))
  /\ snd (fst r1) = snd (fst r2)
  /\ snd r1 = snd r2.
Proof.
  revert w1 w2 fr.
  induction iteration as [|n IH]; intros w1 w2 fr Hsame.
  - cbn [each_iteration fst snd]. split; [exact Hsame|]. split; reflexivity.
  - cbn [each_iteration]. cbv zeta.
    pose proof (each_buffer_same_but_opts o1 o2 buffers w1 w2 fr Hsame)
      as Hpass.
    cbv zeta in Hpass.
    destruct (each_buffer X o1 buffers (w1, fr)) as [[w1' fr1] returned1].
    destruct (each_buffer X o2 buffers (w2, fr)) as [[w2' fr2] returned2].
    cbn [fst snd] in Hpass. destruct Hpass as (Hsame' & <- & <-).
    destruct returned1.
    + cbn [fst snd]. split; [exact Hsame'|]. split; reflexivity.
    + apply IH. exact Hsame'.
Qed.

(** A run under other options: the same outcome, and the same world but
    for the options recorded in the log. *)
Lemma perform_same_but_opts o1 o2 buffers iteration totalBytes totalLines
    w1 w2 :
  same_but_opts w1 w2 ->
  let r1 := perform X buffers o1 iteration totalBytes totalLines w1 in
  let r2 := perform X buffers o2 iteration totalBytes totalLines w2 in
  same_but_opts (fst r1) (fst r2) /\ snd r1 = snd r2.
Proof.
  intros Hsame. unfold perform, perform_loops. cbv zeta.
  pose proof (each_iteration_same_but_opts o1 o2 buffers iteration
                (print_outs [ParserLine (name X)] (print_outs [Separator] w1))
                (print_outs [ParserLine (name X)] (print_outs [Separator] w2))
                (mkFrame Chrono.zero Chrono.zero Error_success)
                (same_but_opts_print _ _ _ (same_but_opts_print _ _ _ Hsame)))
    as Hloops.
  cbv zeta in Hloops.
  destruct (each_iteration X o1 _ _ _) as [[w1' fr1] returned1].
  destruct (each_iteration X o2 _ _ _) as [[w2' fr2] returned2].
  cbn [fst snd] in Hloops. destruct Hloops as (Hsame' & <- & <-).
  destruct returned1; cbn [fst snd].
  - split; [exact Hsame' | reflexivity].
  - split; [apply same_but_opts_print; exact Hsame' | reflexivity].
Qed.

End OneExecutor.

Lemma executor_ignores_opts mode b o1 o2 :
  performParse (executor_of SWIFT_BUILD_SWIFT_SYNTAX mode) b o1 =
  performParse (executor_of SWIFT_BUILD_SWIFT_SYNTAX mode) b o2.
Proof. destruct mode; reflexivity. Qed.

Lemma each_executor_same_but_opts o1 o2 modes buffers iteration byteCount
    lineCount w1 w2 :
  same_but_opts w1 w2 ->
  let r1 := each_executor modes buffers o1 iteration byteCount lineCount w1 in
  let r2 := each_executor modes buffers o2 iteration byteCount lineCount w2 in
  same_but_opts (fst r1) (fst r2) /\ snd r1 = snd r2.
Proof.
  revert w1 w2. induction modes as [|mode rest IH]; intros w1 w2 Hsame.
  - cbn [each_executor fst snd]. split; [exact Hsame | reflexivity].
  - cbn [each_executor]. cbv zeta.
    pose proof (perform_same_but_opts
                  (executor_of SWIFT_BUILD_SWIFT_SYNTAX mode)
                  (executor_ignores_opts mode) o1 o2 buffers iteration
                  byteCount lineCount w1 w2 Hsame) as Hrun.
    cbv zeta in Hrun.
    destruct (perform _ buffers o1 _ _ _ w1) as [w1' e1].
    destruct (perform _ buffers o2 _ _ _ w2) as [w2' e2].
    cbn [fst snd] in Hrun. destruct Hrun as (Hsame' & <-).
    destruct (Error_bool e1).
    + cbn [fst snd]. split; [exact Hsame' | reflexivity].
    + apply IH. exact Hsame'.
Qed.

(** X13. The [skip-bodies] flag changes nothing of a run of the tool but
    the option set handed to the parsers: with the same corpus and the same
    clock readings, the exit status, the output, the error stream, the
    number of clock reads and the sequence of parse calls (executor and
    buffer) are the same with the flag as without it. *)
Theorem skip_bodies_changes_only_the_options_of_the_calls
    (fs : string -> FsNode) (options : SwiftParseTestOptions) (flag : bool)
    (w : World) :
  let main :=
    swift_parse_test_main CLOCKS_PER_SEC std_clock steady_clock_now
      SWIFT_BUILD_SWIFT_SYNTAX fs in
  snd (main (with_skip_bodies options flag) w) = snd (main options w)
  /\ same_but_opts (fst (main (with_skip_bodies options flag) w))
                   (fst (main options w)).
Proof.
  intros main. subst main. rewrite !main_unfold. cbv zeta.
  set (o1 := exec_options_of (with_skip_bodies options flag)).
  cbn [with_skip_bodies InputPaths Executors Iterations].
  set (buffers := loadSources fs (InputPaths options) []).
  set (w0 := print_outs _ w).
  assert (Hw0 : same_but_opts w0 w0) by (repeat split).
  pose proof (each_executor_same_but_opts
                o1 (exec_options_of options) (Executors options) buffers
                (Iterations options) (fst (count_corpus buffers 0 0))
                (snd (count_corpus buffers 0 0)) w0 w0 Hw0) as Hloop.
  cbv zeta in Hloop.
  destruct (each_executor _ _ o1 _ _ _ _) as [w1 e1].
  destruct (each_executor _ _ (exec_options_of options) _ _ _ _) as [w2 e2].
  cbn [fst snd] in Hloop |- *. destruct Hloop as (Hsame & <-).
  destruct e1 as [message|]; cbn [fst snd].
  - split; [reflexivity|].
    destruct Hsame as (Hc & Hn & Ho & He & Hl).
    unfold same_but_opts, print_errs.
    cbn [clock_reads now_reads outs errs parse_log]. rewrite He.
    repeat split; assumption.
  - split; [reflexivity | exact Hsame].
Qed.

End OptionsFacts.

(** ** Output is only ever appended *)

Section AppendFacts.

Variable CLOCKS_PER_SEC : Z.
Variable std_clock : nat -> Z.
Variable steady_clock_now : nat -> Z.
Variable SWIFT_BUILD_SWIFT_SYNTAX : bool.
Variable fs : string -> FsNode.

Local Abbreviation perform :=
  (perform CLOCKS_PER_SEC std_clock steady_clock_now).
Local Abbreviation each_executor :=
  (each_executor CLOCKS_PER_SEC std_clock steady_clock_now
                 SWIFT_BUILD_SWIFT_SYNTAX).
Local Abbreviation main :=
  (swift_parse_test_main CLOCKS_PER_SEC std_clock steady_clock_now
                         SWIFT_BUILD_SWIFT_SYNTAX fs).

Lemma perform_outs_grow X buffers opts iteration totalBytes totalLines w :
  exists printed,
    outs (fst (perform X buffers opts iteration totalBytes totalLines w)) =
    outs w ++ printed.
Proof.
  destruct (perform_loops_cases CLOCKS_PER_SEC std_clock steady_clock_now
              X buffers opts iteration w)
    as [[_ Hloops] | (pre & b & post & msg & _ & _ & _ & _ & Hloops)].
  - rewrite (completed_run_outs _ _ _ X buffers opts iteration totalBytes
               totalLines w _ _ Hloops).
    eexists. reflexivity.
  - rewrite (perform_returned _ _ _ X buffers opts iteration totalBytes
               totalLines w _ _ Hloops).
    eexists. reflexivity.
Qed.

Lemma each_executor_outs_grow modes buffers opts iteration byteCount
    lineCount w :
  exists printed,
    outs (fst (each_executor modes buffers opts iteration byteCount
                             lineCount w)) = outs w ++ printed.
Proof.
  revert w. induction modes as [|mode rest IH]; intros w.
  - exists []. cbn [each_executor fst]. rewrite app_nil_r. reflexivity.
  - cbn [each_executor].
    destruct (perform_outs_grow (executor_of SWIFT_BUILD_SWIFT_SYNTAX mode)
                buffers opts iteration byteCount lineCount w)
      as (printed & Hprinted).
    destruct (perform _ _ _ _ _ _ _) as [w1 e]. cbn [fst] in Hprinted.
    destruct (Error_bool e); cbn [fst].
    + exists printed. exact Hprinted.
    + destruct (IH w1) as (more & Hmore).
      exists (printed ++ more). rewrite Hmore, Hprinted, app_assoc.
      reflexivity.
Qed.

(** The loop over [pre ++ post] is the loop over [pre], continued with the
    loop over [post] if no run of [pre] failed. *)
Lemma each_executor_app pre post buffers opts iteration byteCount lineCount w :
  each_executor (pre ++ post) buffers opts iteration byteCount lineCount w =
  let r := each_executor pre buffers opts iteration byteCount lineCount w in
  match snd r with
  | Some _ => r
  | None =>
      each_executor post buffers opts iteration byteCount lineCount (fst r)
  end.
Proof.
  revert w. induction pre as [|mode pre IH]; intros w.
  - reflexivity.
  - cbn [app each_executor]. cbv zeta.
    destruct (perform _ _ _ _ _ _ _) as [w1 [message|]]; cbn [Error_bool].
    + reflexivity.
    + apply IH.
Qed.

(** X14. Output is only ever appended.  What was on the output before the
    tool ran stays, followed by the preamble and then the reports; and when
    the executors [pre] all succeed, selecting further executors after them
    only adds to what the tool prints and to the parse calls it makes: the
    reports of the earlier executors stand as they are, also when a later
    executor fails. *)
Theorem earlier_reports_are_never_retracted
    (options : SwiftParseTestOptions) (pre post : list Executor) (w : World)
    (Hpre : snd (main (with_executors options pre) w) = 0) :
  let buffers := loadSources fs (InputPaths options) [] in
  let stats := count_corpus buffers 0 0 in
  let first := fst (main (with_executors options pre) w) in
  let all := fst (main (with_executors options (pre ++ post)) w) in
  (exists reports,
     outs first =
     outs w
     ++ preamble buffers (fst stats) (snd stats) (Iterations options)
     ++ reports)
  /\ (exists more, outs all = outs first ++ more)
  /\ (exists calls, parse_log all = parse_log first ++ calls).
Proof.
  intros buffers stats first all. subst first all.
  rewrite !main_unfold in *. cbv zeta in *.
  cbn [with_executors InputPaths Executors Iterations SkipBodies] in *.
  fold buffers in Hpre |- *. fold stats in Hpre |- *.
  change (exec_options_of (mkOptions pre (Iterations options)
                             (SkipBodies options) (InputPaths options)))
    with (exec_options_of options) in *.
  change (exec_options_of (mkOptions (pre ++ post) (Iterations options)
                             (SkipBodies options) (InputPaths options)))
    with (exec_options_of options).
  set (w0 := print_outs _ w) in *.
  rewrite each_executor_app. cbv zeta.
  destruct (each_executor_outs_grow pre buffers (exec_options_of options)
              (Iterations options) (fst stats) (snd stats) w0)
    as (reports & Hreports).
  destruct (each_executor pre _ _ _ _ _ w0) as [w1 [message|]];
    cbn [fst snd] in *; [discriminate Hpre|].
  split.
  { exists reports. rewrite Hreports. subst w0.
    cbn [print_outs outs]. rewrite <- app_assoc. reflexivity. }
  destruct (each_executor_outs_grow post buffers (exec_options_of options)
              (Iterations options) (fst stats) (snd stats) w1)
    as (more & Hmore).
  destruct (each_executor_log CLOCKS_PER_SEC std_clock steady_clock_now
              SWIFT_BUILD_SWIFT_SYNTAX post buffers (exec_options_of options)
              (Iterations options) (fst stats) (snd stats) w1)
    as (calls & Hcalls & _).
  destruct (each_executor post _ _ _ _ _ w1) as [w2 [message|]];
    cbn [fst snd print_errs outs parse_log] in *;
    (split; [exists more; exact Hmore | exists calls; exact Hcalls]).
Qed.

End AppendFacts.

(** ** The throughput figures *)


(** * Further instances on the example platform *)

Lemma no_cpu_time_without_usable_clock_rate_witness :
  (0 <= 0 \/ 1000000000 < 0)
  /\ outs (fst (perform 0 (Example.stepping_clock 1000)
                        (Example.stepping_clock 1000000) LibParseExecutor
                        [Example.a_swift] no_options 1 4 2 initial_world))
     = [Separator; ParserLine "libParse"; WallClockMs 1; CpuTimeMs 0].
Proof.
  assert (Hrate : 0 <= 0 \/ 1000000000 < 0) by (left; lia).
  split; [exact Hrate|].
  destruct (no_cpu_time_without_usable_clock_rate
              0 (Example.stepping_clock 1000) (Example.stepping_clock 1000000)
              LibParseExecutor [Example.a_swift] no_options 1 4 2
              initial_world Hrate) as [_ Houts].
  exact (Houts eq_refl).
Defined.


Lemma cpu_time_is_counted_in_whole_clock_ticks_witness :
  0 < Example.CLOCKS_PER_SEC
  /\ (1000 | cDuration
               (snd (fst (perform_loops Example.CLOCKS_PER_SEC
                            (Example.stepping_clock 7)
                            (Example.stepping_clock 1000000)
                            LibParseExecutor [Example.a_swift] no_options 3
                            initial_world)))).
Proof.
  assert (Hrate : 0 < Example.CLOCKS_PER_SEC) by reflexivity.
  split; [exact Hrate|].
  destruct (cpu_time_is_counted_in_whole_clock_ticks
              Example.CLOCKS_PER_SEC (Example.stepping_clock 7)
              (Example.stepping_clock 1000000) LibParseExecutor
              [Example.a_swift] no_options 3 initial_world Hrate)
    as (Hdiv & _).
  exact Hdiv.
Defined.

Lemma throughput_is_printed_below_one_millisecond_witness :
  perform_loops Example.CLOCKS_PER_SEC (Example.stepping_clock 500)
                (Example.stepping_clock 1000000) LibParseExecutor
                [Example.a_swift] no_options 1 initial_world
  = ((mkWorld 2 2 [mkParseCall "libParse" "a.swift" 0]
        [Separator; ParserLine "libParse"] [],
      mkFrame 1000000 500000 None), false)
  /\ 0 < 500000 < 1000000
  /\ outs (fst (perform Example.CLOCKS_PER_SEC (Example.stepping_clock 500)
                        (Example.stepping_clock 1000000) LibParseExecutor
                        [Example.a_swift] no_options 1 4 2 initial_world))
     = [Separator; ParserLine "libParse"; WallClockMs 1; CpuTimeMs 0;
        ThroughputBytes 8000; ThroughputLines 4000].
Proof.
  assert (Hrun :
    perform_loops Example.CLOCKS_PER_SEC (Example.stepping_clock 500)
                  (Example.stepping_clock 1000000) LibParseExecutor
                  [Example.a_swift] no_options 1 initial_world
    = ((mkWorld 2 2 [mkParseCall "libParse" "a.swift" 0]
          [Separator; ParserLine "libParse"] [],
        mkFrame 1000000 500000 None), false)) by reflexivity.
  assert (Hsub : 0 < 500000 < 1000000) by (split; reflexivity).
  split; [exact Hrun|]. split; [exact Hsub|].
  exact (throughput_is_printed_below_one_millisecond
           Example.CLOCKS_PER_SEC (Example.stepping_clock 500)
           (Example.stepping_clock 1000000) LibParseExecutor
           [Example.a_swift] no_options 1 4 2 initial_world _ _ Hrun Hsub).
Defined.

Lemma tool_makes_executors_times_iterations_times_corpus_parses_witness :
  let options :=
    mkOptions [LibParse; SwiftParser] 3 true ["a.swift"; "src"]%string in
  hits_unsupported_parser true (Executors options)
    (loadSources Example.files (InputPaths options) [])
    (Iterations options) = false
  /\ List.length
       (parse_log
          (fst (swift_parse_test_main Example.CLOCKS_PER_SEC
                  (Example.stepping_clock 1000)
                  (Example.stepping_clock 1000000) true Example.files
                  options initial_world))) = 12%nat.
Proof.
  intros options.
  assert (Hok : hits_unsupported_parser true (Executors options)
                  (loadSources Example.files (InputPaths options) [])
                  (Iterations options) = false) by reflexivity.
  split; [exact Hok|].
  destruct (tool_makes_executors_times_iterations_times_corpus_parses
              Example.CLOCKS_PER_SEC (Example.stepping_clock 1000)
              (Example.stepping_clock 1000000) true Example.files
              options initial_world Hok) as [Hcount _].
  exact Hcount.
Defined.

Lemma earlier_reports_are_never_retracted_witness :
  let options := mkOptions [] 1 false ["a.swift"%string] in
  let main :=
    swift_parse_test_main Example.CLOCKS_PER_SEC (Example.stepping_clock 1000)
      (Example.stepping_clock 1000000) false Example.files in
  snd (main (with_executors options [LibParse]) initial_world) = 0
  /\ exists more,
       outs (fst (main (with_executors options ([LibParse] ++ [SwiftParser]))
                       initial_world))
       = outs (fst (main (with_executors options [LibParse]) initial_world))
         ++ more.
Proof.
  intros options main.
  assert (Hpre : snd (main (with_executors options [LibParse]) initial_world)
                 = 0) by reflexivity.
  split; [exact Hpre|].
  destruct (earlier_reports_are_never_retracted
              Example.CLOCKS_PER_SEC (Example.stepping_clock 1000)
              (Example.stepping_clock 1000000) false Example.files
              options [LibParse] [SwiftParser] initial_world Hpre)
    as (_ & Hmore & _).
  exact Hmore.
Defined.

